(** * HydroSense: the leak-detection pipeline of [server/model.py]

    A shallow embedding of the class [SmartWaterManagement] and the
    properties its specification states about it.

    Conventions of the embedding.
    - Numbers.  The program computes with IEEE-754 doubles (Python [float],
      [numpy.float64]).  The type [num] keeps the three special values the
      control flow can observe (NaN and the two infinities) and takes the
      finite values as exact rationals: finite arithmetic neither rounds nor
      overflows, and there is one zero (it behaves as [+0.0]).  The mean of
      a frame is a [numpy.float64], so the arithmetic of lines 55-64 is
      numpy's: a division by zero yields an infinity or NaN and a warning,
      which line 8 silences; it raises nothing.
    - Time.  A [pandas.Timestamp] is a number of seconds ([Z]); the wall
      clock read by [pd.Timestamp.now()] is an explicit argument [now].
    - Frames.  A [DataFrame] with the index [timestamp] and the column
      [water_usage] is the list of its rows, in order; the in-place
      [fillna] of lines 21-22 updates the frame.
    - Libraries.  ARIMA, IsolationForest and Prophet are not part of the
      program; they are a record of operations [Libraries] that may raise.
    - Effects.  The object [self] is an explicit state; a method is a
      function from the state to a result (a value or a raised exception)
      together with the state it leaves behind, so that what an exception
      leaves assigned is part of the model. *)

From Stdlib Require Import QArith Qreduction Qround Lqa ZArith Lia String List.
From stdpp Require Import base list sorting.

Local Open Scope Z_scope.
Local Open Scope string_scope.
Local Open Scope list_scope.

(** ** Numbers *)

Inductive num : Type :=
  | NaN
  | NInf
  | Fin (q : Q)
  | PInf.

Definition Qltb (a b : Q) : bool := negb (Qle_bool b a).

Definition is_nan (x : num) : bool :=
  match x with NaN => true | _ => false end.

(** [x < y]; every comparison with NaN is false. *)
Definition num_ltb (x y : num) : bool :=
  match x, y with
  | NaN, _ | _, NaN => false
  | NInf, NInf => false
  | NInf, _ => true
  | Fin a, Fin b => Qltb a b
  | Fin _, PInf => true
  | Fin _, NInf => false
  | PInf, _ => false
  end.

(** [x > y] *)
Definition num_gtb (x y : num) : bool := num_ltb y x.

(** [x <= y] *)
Definition num_leb (x y : num) : bool :=
  match x, y with
  | NaN, _ | _, NaN => false
  | NInf, _ => true
  | Fin a, Fin b => Qle_bool a b
  | Fin _, PInf => true
  | Fin _, NInf => false
  | PInf, PInf => true
  | PInf, _ => false
  end.

Definition inf (positive : bool) : num := if positive then PInf else NInf.

Definition num_add (x y : num) : num :=
  match x, y with
  | NaN, _ | _, NaN => NaN
  | PInf, NInf | NInf, PInf => NaN
  | PInf, _ | _, PInf => PInf
  | NInf, _ | _, NInf => NInf
  | Fin a, Fin b => Fin (Qred (a + b))
  end.

Definition num_sub (x y : num) : num :=
  match x, y with
  | NaN, _ | _, NaN => NaN
  | PInf, PInf | NInf, NInf => NaN
  | PInf, _ | _, NInf => PInf
  | NInf, _ | _, PInf => NInf
  | Fin a, Fin b => Fin (Qred (a - b))
  end.

(** An infinity of sign [positive] times [y]. *)
Definition inf_mul (positive : bool) (y : num) : num :=
  match y with
  | NaN => NaN
  | NInf => inf (negb positive)
  | PInf => inf positive
  | Fin b =>
      if Qeq_bool b 0 then NaN
      else inf (if Qltb 0 b then positive else negb positive)
  end.

Definition num_mul (x y : num) : num :=
  match x, y with
  | NaN, _ | _, NaN => NaN
  | PInf, _ => inf_mul true y
  | NInf, _ => inf_mul false y
  | _, PInf => inf_mul true x
  | _, NInf => inf_mul false x
  | Fin a, Fin b => Fin (Qred (a * b))
  end.

(** numpy's [/] on doubles: a zero divisor raises nothing, the quotient is
    an infinity (or NaN for 0/0). *)
Definition num_div (x y : num) : num :=
  match x, y with
  | NaN, _ | _, NaN => NaN
  | Fin a, Fin b =>
      if Qeq_bool b 0
      then (if Qeq_bool a 0 then NaN else inf (Qltb 0 a))
      else Fin (Qred (a / b))
  | Fin _, _ => Fin 0
  | PInf, Fin b => inf (Qle_bool 0 b)
  | NInf, Fin b => inf (negb (Qle_bool 0 b))
  | _, _ => NaN
  end.

(** The floating-point events numpy reports for a division.  Line 8 of the
    module ([warnings.filterwarnings("ignore")]) silences them. *)
Inductive np_warning : Type :=
  | DivideByZero
  | InvalidValue.

Definition div_warnings (x y : num) : list np_warning :=
  match x, y with
  | Fin a, Fin b =>
      if Qeq_bool b 0
      then (if Qeq_bool a 0 then [InvalidValue] else [DivideByZero])
      else []
  | (PInf | NInf), (PInf | NInf) => [InvalidValue]
  | _, _ => []
  end.

Definition np_div (x y : num) : num * list np_warning :=
  (num_div x y, div_warnings x y).

(** Python's builtin [min(a, b)]: [b] when [b < a], else [a]. *)
Definition py_min (a b : num) : num := if num_ltb b a then b else a.

(** Python's builtin [max(a, b)]: [b] when [b > a], else [a]. *)
Definition py_max (a b : num) : num := if num_gtb b a then b else a.

(** Nearest integer, ties to the even one. *)
Definition round_half_even (q : Q) : Z :=
  let n := Qnum q in
  let d := Z.pos (Qden q) in
  let f := n / d in
  match 2 * (n mod d) ?= d with
  | Lt => f
  | Gt => f + 1
  | Eq => if Z.even f then f else f + 1
  end.

(** [round(x, 2)] *)
Definition round2 (x : num) : num :=
  match x with
  | Fin q => Fin (Qred (inject_Z (round_half_even (q * 100)) / 100))
  | _ => x
  end.

(** ** The classification step: lines 55 and 58-64 of [detect_leak] *)

Definition leak_classifier (live_flow_rate average_usage anomaly_score : num)
  : (string * num) * list np_warning :=
  let threshold := num_mul average_usage (Fin (3 # 2)) in
  if num_gtb live_flow_rate average_usage then
    let leak_status :=
      if num_ltb live_flow_rate threshold
      then "Potential Leak" else "Leak Detected" in
    let '(ratio, w) := np_div (num_sub live_flow_rate average_usage)
                              (num_sub threshold average_usage) in
    let overuse_factor := py_min (Fin 1) ratio in
    let leak_probability := round2 (num_mul overuse_factor (Fin 100)) in
    ((leak_status, leak_probability), w)
  else
    let leak_status := "Normal" in
    let leak_probability :=
      round2 (py_max (Fin 0) (py_min (Fin 100)
                (num_mul anomaly_score (Fin 100)))) in
    ((leak_status, leak_probability), []).

(** ** The series store: a [DataFrame] indexed by timestamp *)

(** One row: the index (timestamp, in seconds) and the column
    [water_usage]; a missing cell is NaN. *)
Definition row : Type := Z * num.

Definition hour : Z := 3600.
Definition day : Z := 86400.

(** [Timestamp.floor("H")] *)
Definition floor_H (t : Z) : Z := hour * (t / hour).

(** [df[~df.index.duplicated(keep='last')]]: a row stays when no later row
    has its timestamp. *)
Fixpoint drop_duplicated_keep_last (df : list row) : list row :=
  match df with
  | [] => []
  | r :: rest =>
      if decide (r.1 ∈ rest.*1)
      then drop_duplicated_keep_last rest
      else r :: drop_duplicated_keep_last rest
  end.

(** [sort_index()], as a stable insertion sort on the timestamps. *)
Fixpoint insert_row (r : row) (df : list row) : list row :=
  match df with
  | [] => [r]
  | r' :: rest =>
      if decide (r'.1 < r.1) then r' :: insert_row r rest
      else r :: r' :: rest
  end.

Definition sort_index (df : list row) : list row := foldr insert_row [] df.

(** [fillna(method="ffill")]: a missing cell takes the last value seen. *)
Fixpoint ffill_from (prev : num) (df : list row) : list row :=
  match df with
  | [] => []
  | (t, v) :: rest =>
      if is_nan v then (t, prev) :: ffill_from prev rest
      else (t, v) :: ffill_from v rest
  end.

Definition ffill (df : list row) : list row := ffill_from NaN df.

(** [fillna(value)] *)
Definition fillna (value : num) (df : list row) : list row :=
  map (fun r : row => if is_nan r.2 then (r.1, value) else r) df.

(** [dropna()] *)
Definition dropna (df : list row) : list row :=
  filter (fun r : row => is_nan r.2 = false) df.

(** [Series.sum()]: missing cells are skipped, the empty sum is 0. *)
Definition series_sum (df : list row) : num :=
  foldr (fun (r : row) acc => num_add r.2 acc) (Fin 0) (dropna df).

(** [Series.mean()]: missing cells are skipped, the empty mean is NaN. *)
Definition mean (df : list row) : num :=
  match dropna df with
  | [] => NaN
  | cleaned => num_div (series_sum cleaned)
                 (Fin (inject_Z (Z.of_nat (length cleaned))))
  end.

(** Lines 39-44 of [detect_leak]: concatenate the new entry, drop the
    duplicated timestamps, sort. *)
Definition concat_entry (df : list row) (timestamp : Z) (usage : num)
  : list row :=
  let new_entry := [(timestamp, usage)] in
  let df := df ++ new_entry in
  sort_index (drop_duplicated_keep_last df).

(** [resample('D').sum()]: one row per calendar day from the day of the
    earliest row to the day of the latest one. *)
Definition day_of (t : Z) : Z := t / day.

Definition min_index (df : list row) (t0 : Z) : Z :=
  foldr (fun (r : row) m => Z.min r.1 m) t0 df.

Definition max_index (df : list row) (t0 : Z) : Z :=
  foldr (fun (r : row) m => Z.max r.1 m) t0 df.

Definition resample_D_sum (df : list row) : list row :=
  match df with
  | [] => []
  | r :: rest =>
      let first := day_of (min_index rest r.1) in
      let last := day_of (max_index rest r.1) in
      map (fun d => (day * d,
                     series_sum (filter (fun r : row => day_of r.1 = d) df)))
          (seqZ first (last - first + 1))
  end.

(** [df.last("7D")]: the rows after the position where
    [index[-1] - 7 days] would be inserted (to the right of equal keys). *)
Fixpoint searchsorted_right (df : list row) (t : Z) : list row :=
  match df with
  | [] => []
  | r :: rest => if decide (r.1 <= t) then searchsorted_right rest t else df
  end.

Definition last_7D (df : list row) : list row :=
  match last df with
  | None => []
  | Some r => searchsorted_right df (r.1 - 7 * day)
  end.

(** ** Exceptions, libraries and the object state *)

Inductive exn : Type :=
  | UnboundLocalError (name : string)
  | AttributeError (attr : string)
  | NotFittedError
  | LibraryError (what : string).

Inductive result (A : Type) : Type :=
  | Ok (a : A)
  | Raise (e : exn).
Arguments Ok {A} a.
Arguments Raise {A} e.

(** An estimator object is created unfitted and fitted in place. *)
Inductive estimator (A : Type) : Type :=
  | Unfitted
  | Fitted (m : A).
Arguments Unfitted {A}.
Arguments Fitted {A} m.

(** The three statistical libraries.  Each call may raise; a fitted Prophet
    model predicts one [yhat] per row of the frame it is given. *)
Record Libraries : Type := {
  ARIMA_model : Type;
  ARIMAResults : Type;
  IsolationForest : Type;
  Prophet : Type;
  ARIMA : list row -> result ARIMA_model;
  arima_fit : ARIMA_model -> result ARIMAResults;
  arima_forecast : ARIMAResults -> result num;
  iso_fit : list row -> result IsolationForest;
  decision_function : IsolationForest -> num -> result num;
  prophet_fit : list row -> result Prophet;
  prophet_yhat : Prophet -> Z -> num
}.

Record ClassificationResult : Type := {
  live_flow_rate : num;
  expected_usage : num;
  leak_status : string;
  leak_probability : num
}.

Record WeeklyForecast : Type := {
  predicted_next_week : list (Z * num);
  last_week_usage : list row
}.

Section SmartWaterManagement.
Context (L : Libraries).

(** The attributes of [self]; [None] is an attribute that was never
    assigned.  [csv_file] is the file at [csv_path]. *)
Record Self : Type := {
  csv_file : option (list row);
  df : list row;
  model_arima : option (ARIMA_model L);
  model_fit : option (ARIMAResults L);
  iso_forest : option (estimator (IsolationForest L));
  prophet_model : option (estimator (Prophet L))
}.

Definition set_df (d : list row) (s : Self) : Self :=
  {| csv_file := csv_file s; df := d; model_arima := model_arima s;
     model_fit := model_fit s; iso_forest := iso_forest s;
     prophet_model := prophet_model s |}.

Definition set_csv_file (f : option (list row)) (s : Self) : Self :=
  {| csv_file := f; df := df s; model_arima := model_arima s;
     model_fit := model_fit s; iso_forest := iso_forest s;
     prophet_model := prophet_model s |}.

Definition set_model_arima (m : ARIMA_model L) (s : Self) : Self :=
  {| csv_file := csv_file s; df := df s; model_arima := Some m;
     model_fit := model_fit s; iso_forest := iso_forest s;
     prophet_model := prophet_model s |}.

Definition set_model_fit (m : ARIMAResults L) (s : Self) : Self :=
  {| csv_file := csv_file s; df := df s; model_arima := model_arima s;
     model_fit := Some m; iso_forest := iso_forest s;
     prophet_model := prophet_model s |}.

Definition set_iso_forest (m : estimator (IsolationForest L)) (s : Self)
  : Self :=
  {| csv_file := csv_file s; df := df s; model_arima := model_arima s;
     model_fit := model_fit s; iso_forest := Some m;
     prophet_model := prophet_model s |}.

Definition set_prophet_model (m : estimator (Prophet L)) (s : Self)
  : Self :=
  {| csv_file := csv_file s; df := df s; model_arima := model_arima s;
     model_fit := model_fit s; iso_forest := iso_forest s;
     prophet_model := Some m |}.

(** *** The monad of methods: state and exceptions *)

Definition M (A : Type) : Type := Self -> result A * Self.

#[local] Instance M_ret : MRet M := fun A a s => (Ok a, s).

#[local] Instance M_bind : MBind M := fun A B f m s =>
  match m s with
  | (Ok a, s') => f a s'
  | (Raise e, s') => (Raise e, s')
  end.

Definition get : M Self := fun s => (Ok s, s).

Definition modify (f : Self -> Self) : M unit := fun s => (Ok tt, f s).

Definition call {A} (r : result A) : M A := fun s => (r, s).

(** [self.name]: reading an attribute that was never assigned raises. *)
Definition getattr {A} (name : string) (field : Self -> option A) : M A :=
  fun s =>
    match field s with
    | Some a => (Ok a, s)
    | None => (Raise (AttributeError name), s)
    end.

(** [try: body except Exception: handler] *)
Definition try_except {A} (body : M A) (handler : exn -> M A) : M A :=
  fun s =>
    match body s with
    | (Raise e, s') => handler e s'
    | r => r
    end.

(** A method of a fitted estimator; an unfitted one raises. *)
Definition fitted {A} (e : estimator A) : M A :=
  match e with
  | Fitted m => mret m
  | Unfitted => call (Raise NotFittedError)
  end.

(** *** [load_data], lines 16-23 *)

Definition load_data (file : option (list row)) : result (list row) :=
  let df : option (list row) :=
    match file with
    | Some rows =>
        let df := sort_index (drop_duplicated_keep_last rows) in
        let df := ffill df in
        let df := fillna (mean df) df in
        Some df
    | None => None
    end in
  match df with
  | Some df => Ok df
  | None => Raise (UnboundLocalError "df")
  end.

(** *** [train_models], lines 25-35 *)

Definition train_models : M unit :=
  self ← get;
  let cleaned_data := dropna (df self) in
  match cleaned_data with
  | [] => mret tt
  | _ :: _ =>
      model ← call (ARIMA L cleaned_data);
      modify (set_model_arima model);;
      fit ← call (arima_fit L model);
      modify (set_model_fit fit);;
      modify (set_iso_forest Unfitted);;
      forest ← call (iso_fit L cleaned_data);
      modify (set_iso_forest (Fitted forest));;
      let prophet_df := resample_D_sum cleaned_data in
      modify (set_prophet_model Unfitted);;
      prophet ← call (prophet_fit L prophet_df);
      modify (set_prophet_model (Fitted prophet))
  end.

(** *** [__init__], lines 11-14 *)

Definition init (file : option (list row)) : result Self :=
  match load_data file with
  | Raise e => Raise e
  | Ok d =>
      let self := {| csv_file := file; df := d; model_arima := None;
                     model_fit := None; iso_forest := None;
                     prophet_model := None |} in
      match train_models self with
      | (Ok _, self) => Ok self
      | (Raise e, _) => Raise e
      end
  end.

(** *** [detect_leak], lines 37-71 *)

(** Lines 38-46: the new observation, when there is one. *)
Definition ingest (now : Z) (total_water_usage : option num) : M unit :=
  match total_water_usage with
  | Some usage =>
      if is_nan usage then mret tt
      else
        self ← get;
        let df := concat_entry (df self) (floor_H now) usage in
        modify (set_df df);;
        modify (set_csv_file (Some df));;
        train_models
  | None => mret tt
  end.

(** Lines 48-52: the one-step forecast and its fallback. *)
Definition forecast_expected_usage : M num :=
  try_except
    (fit ← getattr "model_fit" model_fit;
     future_forecast ← call (arima_forecast L fit);
     mret (round2 future_forecast))
    (fun e => self ← get; mret (round2 (mean (df self)))).

(** Lines 48-71: forecast, score, classify. *)
Definition infer (live_flow_rate : num) : M ClassificationResult :=
  expected_usage ← forecast_expected_usage;
  self ← get;
  let average_usage := mean (df self) in
  forest ← getattr "iso_forest" iso_forest;
  forest ← fitted forest;
  anomaly_score ← call (decision_function L forest live_flow_rate);
  let '((leak_status, leak_probability), _) :=
    leak_classifier live_flow_rate average_usage anomaly_score in
  mret {| live_flow_rate := live_flow_rate;
          expected_usage := expected_usage;
          leak_status := leak_status;
          leak_probability := leak_probability |}.

Definition detect_leak (now : Z) (live_flow_rate : num)
    (total_water_usage : option num) : M ClassificationResult :=
  ingest now total_water_usage;;
  infer live_flow_rate.

(** *** [predict_weekly_usage], lines 73-82 *)

(** [pd.date_range(start=now, periods=7, freq="D")] *)
Definition date_range_7D (now : Z) : list Z :=
  map (fun i => now + day * i) (seqZ 0 7).

Definition predict_weekly_usage (now : Z) : M WeeklyForecast :=
  let future := date_range_7D now in
  prophet ← getattr "prophet_model" prophet_model;
  prophet ← fitted prophet;
  let predicted_usage :=
    map (fun ds => (ds, prophet_yhat L prophet ds)) future in
  self ← get;
  let last_week_usage := resample_D_sum (last_7D (df self)) in
  mret {| predicted_next_week := predicted_usage;
          last_week_usage := last_week_usage |}.

End SmartWaterManagement.

Arguments csv_file {L} s.
Arguments df {L} s.
Arguments model_arima {L} s.
Arguments model_fit {L} s.
Arguments iso_forest {L} s.
Arguments prophet_model {L} s.

(** ** A concrete instance of the libraries, for running the methods

    Fitting needs at least [min_obs] observations; the forecast is the last
    value of the series, or an error when [forecast_ok] is off; the outlier
    score is a constant; the seasonal prediction is the mean daily usage. *)
Definition sample_libraries (min_obs : nat) (forecast_ok : bool) (score : num)
  : Libraries :=
  {| ARIMA_model := list row;
     ARIMAResults := list row;
     IsolationForest := unit;
     Prophet := list row;
     ARIMA := fun series => Ok series;
     arima_fit := fun series =>
       if decide (min_obs <= length series)%nat then Ok series
       else Raise (LibraryError "fit: too few observations");
     arima_forecast := fun series =>
       match last series with
       | Some r => if forecast_ok then Ok r.2
                   else Raise (LibraryError "forecast")
       | None => Raise (LibraryError "forecast")
       end;
     iso_fit := fun _ => Ok tt;
     decision_function := fun _ x =>
       if is_nan x then Raise (LibraryError "Input contains NaN")
       else Ok score;
     prophet_fit := fun daily => Ok daily;
     prophet_yhat := fun daily _ => mean daily |}.

(** The state the constructor reaches on a clean [history]. *)
Definition sample_system (min_obs : nat) (forecast_ok : bool) (score : num)
    (history : list row) : Self (sample_libraries min_obs forecast_ok score) :=
  Build_Self (sample_libraries min_obs forecast_ok score)
    (Some history) history (Some history) (Some history)
    (Some (Fitted tt)) (Some (Fitted (resample_D_sum history))).

(** [n] hourly observations of the same value. *)
Definition hourly_history (n : Z) (usage : Q) : list row :=
  map (fun h => (hour * h, Fin usage)) (seqZ 0 n).

(** Eight hourly observations of the same value. *)
Definition steady_history (usage : Q) : list row := hourly_history 8 usage.

(** Lines 85-88 of the module: build the system from the file, then ask
    for one classification. *)
Definition main_detect_leak (L : Libraries) (file : option (list row))
    (now : Z) (live_flow_rate : num) (total_water_usage : option num)
  : result ClassificationResult :=
  match init L file with
  | Raise e => Raise e
  | Ok smart_water_system =>
      (detect_leak L now live_flow_rate total_water_usage
         smart_water_system).1
  end.

(** The system built from a file without rows: nothing was trained. *)
Definition empty_system (L : Libraries) : Self L :=
  {| csv_file := Some [];
     df := [];
     model_arima := None;
     model_fit := None;
     iso_forest := None;
     prophet_model := None |}.

(** Further calls of [detect_leak], each with the observation [usage];
    a call is its clock reading and its live flow rate. *)
Definition feed (L : Libraries) (usage : num) (s : Self L)
    (calls : list (Z * num)) : Self L :=
  foldl (fun s c => (detect_leak L c.1 c.2 (Some usage) s).2) s calls.

(** The states of a running system: the constructor builds the first one,
    every call of a method leaves the next one (also when it raises). *)
Inductive reachable (L : Libraries) : Self L -> Prop :=
  | reachable_init file s :
      init L file = Ok s -> reachable L s
  | reachable_detect_leak s now live total :
      reachable L s -> reachable L (detect_leak L now live total s).2
  | reachable_predict_weekly_usage s now :
      reachable L s -> reachable L (predict_weekly_usage L now s).2.

(** ** The formulas of the specification

    [clamp] and the two probability formulas follow the words of the
    specification (section 4.5); they are compared with [leak_classifier],
    which follows the code. *)

Definition clamp (x lo hi : num) : num :=
  if num_ltb x lo then lo else if num_ltb hi x then hi else x.

Definition spec_threshold (historical_mean : num) : num :=
  num_mul historical_mean (Fin (3 # 2)).

Definition spec_overuse_probability (live_flow_rate historical_mean : num)
  : num :=
  let threshold := spec_threshold historical_mean in
  let overuse_factor :=
    clamp (num_div (num_sub live_flow_rate historical_mean)
                   (num_sub threshold historical_mean)) (Fin 0) (Fin 1) in
  round2 (num_mul overuse_factor (Fin 100)).

Definition spec_overuse_status (live_flow_rate historical_mean : num)
  : string :=
  if num_ltb live_flow_rate (spec_threshold historical_mean)
  then "Potential Leak" else "Leak Detected".

Definition spec_normal_probability (outlier_score : num) : num :=
  round2 (clamp (num_mul outlier_score (Fin 100)) (Fin 0) (Fin 100)).

(** [0 <= x <= 100] *)
Definition in_0_100 (x : num) : bool :=
  num_leb (Fin 0) x && num_leb x (Fin 100).

(** Every finite result of an operation is a reduced fraction. *)
Definition canonical (x : num) : Prop :=
  match x with Fin q => Qred q = q | _ => True end.

(** The order of a sorted frame without duplicated timestamps. *)
Definition key_lt (r1 r2 : row) : Prop := r1.1 < r2.1.

(** ** Predicates on values and frames *)

(** A cell that holds a finite number that is not negative, or is missing. *)
Definition nonneg_or_missing (x : num) : Prop :=
  match x with NaN => True | Fin q => (0 <= q)%Q | _ => False end.

(** A number with at most two decimals (the special values aside). *)
Definition two_decimals (x : num) : Prop :=
  match x with
  | Fin q => exists k : Z, (q == inject_Z k / 100)%Q
  | _ => True
  end.

(** A frame without missing cells. *)
Definition no_missing (df : list row) : Prop :=
  Forall (fun r : row => is_nan r.2 = false) df.

(** [(t, v)] is the last row of [rows] with the timestamp [t]. *)
Definition last_write (rows : list row) (t : Z) (v : num) : Prop :=
  exists l1 l2, rows = l1 ++ (t, v) :: l2 /\ t ∉ l2.*1.

(** An instance of the libraries whose outlier scorer cannot be fitted,
    and a system of it that holds older models. *)
Definition scorer_fails : Libraries :=
  {| ARIMA_model := list row;
     ARIMAResults := list row;
     IsolationForest := unit;
     Prophet := list row;
     ARIMA := fun series => Ok series;
     arima_fit := fun series => Ok series;
     arima_forecast := fun series =>
       match last series with
       | Some r => Ok r.2
       | None => Raise (LibraryError "forecast")
       end;
     iso_fit := fun _ => Raise (LibraryError "fit: scorer");
     decision_function := fun _ _ => Ok (Fin 0);
     prophet_fit := fun daily => Ok daily;
     prophet_yhat := fun daily _ => mean daily |}.

Definition scorer_fails_system : Self scorer_fails :=
  Build_Self scorer_fails
    (Some (steady_history 4)) (steady_history 4)
    (Some (steady_history 4)) (Some (steady_history 4))
    (Some (Fitted tt)) (Some (Fitted (resample_D_sum (steady_history 4)))).

(** ** Facts about the numbers *)

Lemma Qltb_lt a b : Qltb a b = true <-> (a < b)%Q.
Proof.
  unfold Qltb. rewrite negb_true_iff, <- not_true_iff_false, Qle_bool_iff.
  split; [apply Qnot_le_lt | apply Qlt_not_le].
Qed.

Lemma Qltb_ge a b : Qltb a b = false <-> (b <= a)%Q.
Proof. unfold Qltb. rewrite negb_false_iff. apply Qle_bool_iff. Qed.

Lemma Qeq_bool_false a b : Qeq_bool a b = false <-> ~ (a == b)%Q.
Proof. rewrite <- not_true_iff_false, Qeq_bool_iff. tauto. Qed.

Lemma num_leb_not_gtb x y : num_leb x y = true -> num_gtb x y = false.
Proof.
  unfold num_gtb.
  destruct x as [| |a|], y as [| |b|]; simpl; try congruence.
  rewrite Qle_bool_iff, Qltb_ge. tauto.
Qed.

Lemma canonical_eq q c : Qred q = q -> (q == c)%Q -> q = Qred c.
Proof. intros Hc E. rewrite <- Hc. now apply Qred_complete. Qed.

Lemma Qred_idem q : Qred (Qred q) = Qred q.
Proof. apply Qred_complete, Qred_correct. Qed.

Lemma inf_mul_canonical p y : canonical (inf_mul p y).
Proof.
  destruct y as [| |b|], p; simpl; trivial;
    destruct (Qeq_bool b 0), (Qltb 0 b); exact I.
Qed.

Lemma num_mul_canonical x y : canonical (num_mul x y).
Proof.
  destruct x as [| |a|], y as [| |b|];
    try apply inf_mul_canonical; try exact I.
  apply Qred_idem.
Qed.

Lemma num_div_canonical x y : canonical (num_div x y).
Proof.
  destruct x as [| |a|], y as [| |b|]; cbv [num_div inf canonical];
    try exact I; try reflexivity;
    repeat match goal with
           | |- context [if ?c then _ else _] => destruct c
           end; simpl; try exact I; apply Qred_idem.
Qed.

(** Case analysis on every rational comparison of the goal. *)
Ltac q_cases :=
  repeat match goal with
         | |- context [Qltb ?a ?b] =>
             let H := fresh "Hlt" in
             destruct (Qltb a b) eqn:H;
             [apply Qltb_lt in H | apply Qltb_ge in H]
         | |- context [Qle_bool ?a ?b] =>
             let H := fresh "Hle" in
             destruct (Qle_bool a b) eqn:H;
             [apply Qle_bool_iff in H
             |apply not_true_iff_false in H; rewrite Qle_bool_iff in H]
         | |- context [Qeq_bool ?a ?b] =>
             let H := fresh "Heq" in
             destruct (Qeq_bool a b) eqn:H;
             [apply Qeq_bool_iff in H | apply Qeq_bool_false in H]
         end.

(** Python's [max(0, min(100, x))] is the clamp to [0, 100], except at NaN,
    which [min] turns into 100. *)
Lemma py_max_min_clamp x :
  canonical x -> is_nan x = false ->
  py_max (Fin 0) (py_min (Fin 100) x) = clamp x (Fin 0) (Fin 100).
Proof.
  destruct x as [| |q|]; simpl; try congruence; try reflexivity.
  intros Hc _. cbv [py_max py_min clamp num_gtb num_ltb].
  q_cases; cbv [num_ltb]; q_cases;
    try reflexivity; try (exfalso; lra);
    f_equal; symmetry;
    first [apply (canonical_eq q 0 Hc) | apply (canonical_eq q 100 Hc)]; lra.
Qed.

(** Python's [min(1, x)] is the clamp to [0, 1] wherever [x] is positive. *)
Lemma py_min_clamp x :
  canonical x -> num_ltb (Fin 0) x = true ->
  py_min (Fin 1) x = clamp x (Fin 0) (Fin 1).
Proof.
  destruct x as [| |q|]; simpl; try congruence; try reflexivity.
  intros Hc Hq. apply Qltb_lt in Hq. cbv [py_min clamp num_ltb].
  q_cases; try reflexivity; try (exfalso; lra).
  f_equal; symmetry; apply (canonical_eq q 1 Hc); lra.
Qed.

(** ** The classification step: the two branches *)

Lemma classifier_normal_branch live average_usage anomaly_score :
  num_gtb live average_usage = false ->
  leak_classifier live average_usage anomaly_score =
    (("Normal", round2 (py_max (Fin 0) (py_min (Fin 100)
                  (num_mul anomaly_score (Fin 100))))), []).
Proof. unfold leak_classifier. now intros ->. Qed.

Lemma classifier_overuse_branch live average_usage anomaly_score :
  num_gtb live average_usage = true ->
  let threshold := num_mul average_usage (Fin (3 # 2)) in
  let ratio := num_div (num_sub live average_usage)
                       (num_sub threshold average_usage) in
  leak_classifier live average_usage anomaly_score =
    ((if num_ltb live threshold then "Potential Leak" else "Leak Detected",
      round2 (num_mul (py_min (Fin 1) ratio) (Fin 100))),
     div_warnings (num_sub live average_usage)
                  (num_sub threshold average_usage)).
Proof. unfold leak_classifier, np_div. now intros ->. Qed.

(** The overuse ratio is positive when the mean is. *)
Lemma overuse_ratio_positive live a :
  (0 < a)%Q -> num_gtb live (Fin a) = true ->
  num_ltb (Fin 0)
    (num_div (num_sub live (Fin a))
             (num_sub (num_mul (Fin a) (Fin (3 # 2))) (Fin a))) = true.
Proof.
  intros Ha Hgt. unfold num_gtb in Hgt.
  assert (Qred (Qred (a * (3 # 2)) - a) == a * (1 # 2))%Q as Hd
    by (rewrite !Qred_correct; ring).
  destruct live as [| |l|]; simpl in Hgt; try discriminate.
  - apply Qltb_lt in Hgt.
    assert (Qred (l - a) == l - a)%Q as Hn by apply Qred_correct.
    cbv [num_mul num_sub num_div].
    q_cases; try (exfalso; lra).
    cbv [num_ltb]. apply Qltb_lt. rewrite Qred_correct.
    apply Qlt_shift_div_l; lra.
  - cbv [num_mul num_sub num_div inf].
    q_cases; [reflexivity | exfalso; lra].
Qed.

(** On a positive mean the overuse branch computes the status and the
    probability of the specification. *)
Lemma overuse_branch_positive_mean live a anomaly_score :
  (0 < a)%Q -> num_gtb live (Fin a) = true ->
  (leak_classifier live (Fin a) anomaly_score).1 =
    (spec_overuse_status live (Fin a), spec_overuse_probability live (Fin a)).
Proof.
  intros Ha Hgt. rewrite classifier_overuse_branch by exact Hgt.
  cbv [fst spec_overuse_status spec_overuse_probability spec_threshold].
  rewrite py_min_clamp;
    [reflexivity | apply num_div_canonical | now apply overuse_ratio_positive].
Qed.

(** The example of the specification: mean 10.0, live 12.0. *)
Lemma overuse_example_mean_10_live_12 anomaly_score :
  (leak_classifier (Fin 12) (Fin 10) anomaly_score).1 =
    ("Potential Leak", Fin 40).
Proof. reflexivity. Qed.

(** The example of the specification: mean 10.0, live 20.2. *)
Lemma overuse_example_mean_10_live_20_2 anomaly_score :
  (leak_classifier (Fin (101 # 5)) (Fin 10) anomaly_score).1 =
    ("Leak Detected", Fin 100).
Proof. reflexivity. Qed.

(** ** Where the probability is within [0, 100] *)

Lemma round_half_even_bounds q (lo hi : Z) :
  (inject_Z lo <= q)%Q -> (q <= inject_Z hi)%Q ->
  lo <= round_half_even q <= hi.
Proof.
  destruct q as [n d]. unfold Qle, round_half_even.
  cbn [Qnum Qden inject_Z]. cbv zeta.
  rewrite !Z.mul_1_r. intros Hlo Hhi.
  pose proof (Z.div_mod n (Z.pos d) ltac:(lia)) as Hdm.
  pose proof (Z.mod_pos_bound n (Z.pos d) ltac:(lia)) as Hm.
  assert (lo <= n / Z.pos d) by (apply Z.div_le_lower_bound; lia).
  assert (n / Z.pos d <= hi) by (apply Z.div_le_upper_bound; lia).
  assert (n mod Z.pos d = 0 \/ n / Z.pos d + 1 <= hi) as Hup.
  { destruct (Z.eq_dec (n / Z.pos d) hi) as [Heq|Hne]; [left|right; lia].
    rewrite Heq in Hdm. lia. }
  destruct (Z.compare_spec (2 * (n mod Z.pos d)) (Z.pos d));
    [destruct (Z.even (n / Z.pos d))| |]; lia.
Qed.

Lemma round2_in_0_100 x : in_0_100 x = true -> in_0_100 (round2 x) = true.
Proof.
  unfold in_0_100. destruct x as [| |q|]; simpl; try done.
  rewrite !andb_true_iff, !Qle_bool_iff. intros [H0 H100].
  destruct (round_half_even_bounds (q * 100) 0 10000) as [Hlo Hhi].
  { change (inject_Z 0) with 0%Q. lra. }
  { change (inject_Z 10000) with 10000%Q. lra. }
  set (k := round_half_even (q * 100)) in *.
  assert (0 <= inject_Z k)%Q
    by (change 0%Q with (inject_Z 0); by rewrite <- Zle_Qle).
  assert (inject_Z k <= 10000)%Q
    by (change 10000%Q with (inject_Z 10000); by rewrite <- Zle_Qle).
  rewrite !Qred_correct. split.
  - apply Qle_shift_div_l; lra.
  - apply Qle_shift_div_r; lra.
Qed.

(** In the Normal branch the probability is within [0, 100] for every
    input, NaN included. *)
Lemma normal_probability_in_0_100 live average_usage anomaly_score :
  num_gtb live average_usage = false ->
  in_0_100 (leak_classifier live average_usage anomaly_score).1.2 = true.
Proof.
  intros Hgt. rewrite classifier_normal_branch by done. cbn [fst snd].
  apply round2_in_0_100.
  destruct (num_mul anomaly_score (Fin 100)) as [| |q|]; try reflexivity.
  cbv [py_max py_min num_gtb num_ltb in_0_100 num_leb].
  q_cases; cbv [num_ltb]; q_cases; try reflexivity; try (exfalso; lra).
Qed.

(** In the overuse branch the probability is within [0, 100] as long as
    the mean is not negative. *)
Lemma overuse_probability_in_0_100 live a anomaly_score :
  (0 <= a)%Q -> num_gtb live (Fin a) = true ->
  in_0_100 (leak_classifier live (Fin a) anomaly_score).1.2 = true.
Proof.
  intros Ha Hgt. rewrite classifier_overuse_branch by done. cbn [fst snd].
  apply round2_in_0_100.
  assert (Qred (Qred (a * (3 # 2)) - a) == a * (1 # 2))%Q as Hd
    by (rewrite !Qred_correct; ring).
  unfold num_gtb in Hgt.
  destruct live as [| |l|]; simpl in Hgt; try discriminate.
  - apply Qltb_lt in Hgt.
    assert (Qred (l - a) == l - a)%Q as Hn by apply Qred_correct.
    cbv [num_mul num_sub num_div inf].
    q_cases; try (exfalso; lra); try reflexivity.
    assert (0 < Qred (Qred (l - a) / Qred (Qred (a * (3 # 2)) - a)))%Q as Hr.
    { rewrite Qred_correct. apply Qlt_shift_div_l; lra. }
    set (r := Qred (Qred (l - a) / Qred (Qred (a * (3 # 2)) - a))) in *.
    cbv [py_min num_ltb].
    q_cases; try reflexivity.
    cbv [num_mul in_0_100 num_leb].
    rewrite andb_true_iff, !Qle_bool_iff, !(Qred_correct (r * 100)). lra.
  - cbv [num_mul num_sub num_div inf].
    q_cases; [reflexivity | exfalso; lra].
Qed.

(** ** Claims on the classification step *)

(** C3 (the code departs from the claim).  The claim gives the overuse
    probability as [round(clamp(ratio, 0, 1) * 100, 2)]; line 60 only takes
    [min(1, ratio)].  With mean -10 and live 0 the ratio is -2: the code
    answers "Leak Detected" with probability -200, the formula of the claim
    gives 0. *)
Theorem C3_overuse_formula_differs_on_negative_mean :
  forall anomaly_score,
    (leak_classifier (Fin 0) (Fin (-10)) anomaly_score).1 =
      ("Leak Detected", Fin (-200))
    /\ spec_overuse_status (Fin 0) (Fin (-10)) = "Leak Detected"
    /\ spec_overuse_probability (Fin 0) (Fin (-10)) = Fin 0.
Proof. intros s. repeat split. Qed.

(** C2, as stated, fails: with mean 0 the threshold equals the mean, and a
    live reading of 1 makes the classifier divide 1 by 0. *)
Lemma C2_zero_divisor_is_evaluated :
  spec_threshold (Fin 0) = Fin 0
  /\ (leak_classifier (Fin 1) (Fin 0) (Fin 0)).2 = [DivideByZero].
Proof. split; reflexivity. Qed.

(** C2 (amended).  The overuse division has no special case.  With mean 0
    and any live reading above it the quotient by zero is evaluated; numpy
    raises nothing and returns +inf (with a silenced divide-by-zero warning
    when the reading is finite), [min(1, +inf)] is 1, and the answer is
    "Leak Detected" with probability 100. *)
Theorem C2_zero_mean_overuse :
  forall live anomaly_score,
    num_gtb live (Fin 0) = true ->
    (leak_classifier live (Fin 0) anomaly_score).1 = ("Leak Detected", Fin 100)
    /\ (forall q, live = Fin q ->
          (leak_classifier live (Fin 0) anomaly_score).2 = [DivideByZero]).
Proof.
  intros live s Hgt. rewrite classifier_overuse_branch by exact Hgt.
  unfold num_gtb in Hgt.
  destruct live as [| |l|]; simpl in Hgt; try discriminate.
  - apply Qltb_lt in Hgt.
    assert (Qred (l - 0) == l)%Q as Hn by (rewrite Qred_correct; ring).
    change (num_mul (Fin 0) (Fin (3 # 2))) with (Fin 0).
    cbv [num_sub num_div div_warnings num_ltb fst snd].
    change (Qred (0 - 0)) with 0%Q. change (Qeq_bool 0 0) with true.
    cbv iota. q_cases; try (rewrite Hn in *; exfalso; lra).
    split; [reflexivity | intros; reflexivity].
  - split; [reflexivity | intros q Hq; discriminate].
Qed.

Lemma C2_zero_mean_overuse_witness :
  num_gtb (Fin 1) (Fin 0) = true
  /\ (leak_classifier (Fin 1) (Fin 0) (Fin 0)).1 = ("Leak Detected", Fin 100).
Proof.
  split; [reflexivity |].
  apply (C2_zero_mean_overuse (Fin 1) (Fin 0)). reflexivity.
Defined.

(** C4.  When the live reading is at most the mean (equal included) the
    status is "Normal" and the probability is
    [round(clamp(outlier_score * 100, 0, 100), 2)]; a score of -0.3 gives
    probability 0. *)
Theorem C4_normal_branch :
  forall live average_usage,
    num_leb live average_usage = true ->
    (forall anomaly_score,
       is_nan anomaly_score = false ->
       (leak_classifier live average_usage anomaly_score).1 =
         ("Normal", spec_normal_probability anomaly_score))
    /\ (leak_classifier live average_usage (Fin (-3 # 10))).1 =
         ("Normal", Fin 0).
Proof.
  intros live avg Hle. apply num_leb_not_gtb in Hle. split.
  - intros s Hs. rewrite classifier_normal_branch by done.
    unfold spec_normal_probability. cbn [fst].
    rewrite py_max_min_clamp; [reflexivity | apply num_mul_canonical |].
    destruct s as [| |q|]; try discriminate; reflexivity.
  - by rewrite classifier_normal_branch.
Qed.

Lemma C4_normal_branch_witness :
  num_leb (Fin 10) (Fin 10) = true
  /\ (leak_classifier (Fin 10) (Fin 10) (Fin (1 # 4))).1 = ("Normal", Fin 25)
  /\ (leak_classifier (Fin 10) (Fin 10) (Fin (-3 # 10))).1 = ("Normal", Fin 0).
Proof.
  destruct (C4_normal_branch (Fin 10) (Fin 10) eq_refl) as [H1 H2].
  split; [reflexivity|]. split; [|exact H2].
  exact (H1 (Fin (1 # 4)) eq_refl).
Defined.

(** ** The series store: deduplication and sorting *)

Section store.
Implicit Types (df : list row) (r : row) (t : Z) (v : num).

Lemma drop_duplicated_keys df t :
  t ∈ (drop_duplicated_keep_last df).*1 ↔ t ∈ df.*1.
Proof.
  induction df as [|r rest IH]; [done|]. simpl.
  destruct (decide (r.1 ∈ rest.*1)) as [Hin|Hin].
  - rewrite IH, elem_of_cons. split; [auto|].
    intros [->|Ht]; done.
  - rewrite fmap_cons, !elem_of_cons, IH. done.
Qed.

Lemma drop_duplicated_NoDup df : NoDup (drop_duplicated_keep_last df).*1.
Proof.
  induction df as [|r rest IH]; [constructor|]. simpl.
  destruct (decide (r.1 ∈ rest.*1)) as [Hin|Hin]; [done|].
  rewrite fmap_cons. apply NoDup_cons. split; [|done].
  by rewrite drop_duplicated_keys.
Qed.

Lemma drop_duplicated_id df :
  NoDup df.*1 → drop_duplicated_keep_last df = df.
Proof.
  induction df as [|r rest IH]; [done|]. simpl.
  rewrite NoDup_cons. intros [Hr Hrest].
  rewrite decide_False by done. by rewrite IH.
Qed.

(** Appending an entry and dropping the duplicates removes the older rows
    of its timestamp and keeps the entry. *)
Lemma drop_duplicated_app_entry df t v :
  drop_duplicated_keep_last (df ++ [(t, v)]) =
    filter (λ r, r.1 ≠ t) (drop_duplicated_keep_last df) ++ [(t, v)].
Proof.
  induction df as [|r rest IH]; [done|]. simpl.
  destruct (decide (r.1 ∈ (rest ++ [(t, v)]).*1)) as [H1|H1];
    rewrite fmap_app, elem_of_app in H1; simpl in H1;
    rewrite list_elem_of_singleton in H1;
    destruct (decide (r.1 ∈ rest.*1)) as [H2|H2]; try done.
  - destruct H1 as [H1|Heq]; [done|].
    rewrite filter_cons_False; [done|]. intros Hne. by apply Hne.
  - exfalso. apply H1. by left.
  - rewrite filter_cons_True; [by rewrite IH|].
    intros Heq. apply H1. by right.
Qed.

Lemma insert_row_Permutation r df : insert_row r df ≡ₚ r :: df.
Proof.
  induction df as [|r' rest IH]; [done|]. simpl.
  destruct (decide (r'.1 < r.1)); [|done].
  rewrite IH. apply Permutation_swap.
Qed.

Lemma sort_index_Permutation df : sort_index df ≡ₚ df.
Proof.
  induction df as [|r rest IH]; [done|]. simpl.
  by rewrite insert_row_Permutation, IH.
Qed.

Lemma insert_row_sorted r df :
  r.1 ∉ df.*1 → StronglySorted key_lt df →
  StronglySorted key_lt (insert_row r df).
Proof.
  induction df as [|r' rest IH]; intros Hr Hs; simpl.
  { repeat constructor. }
  rewrite fmap_cons, not_elem_of_cons in Hr. destruct Hr as [Hne Hr].
  apply StronglySorted_cons in Hs as [Hall Hs].
  destruct (decide (r'.1 < r.1)) as [Hlt|Hge].
  - apply StronglySorted_cons. split; [|by apply IH].
    rewrite insert_row_Permutation. by constructor.
  - assert (key_lt r r') as Hrr' by (unfold key_lt; lia).
    apply StronglySorted_cons. split; [|by apply StronglySorted_cons].
    constructor; [done|].
    eapply Forall_impl; [exact Hall|]. unfold key_lt in *. intros; lia.
Qed.

Lemma sort_index_sorted df :
  NoDup df.*1 → StronglySorted key_lt (sort_index df).
Proof.
  induction df as [|r rest IH]; [constructor|]. simpl.
  rewrite NoDup_cons. intros [Hr Hrest].
  apply insert_row_sorted; [|by apply IH].
  by rewrite sort_index_Permutation.
Qed.

Lemma key_lt_sorted_NoDup df : StronglySorted key_lt df → NoDup df.*1.
Proof.
  induction 1 as [|r rest Hs IH Hall]; [constructor|].
  rewrite fmap_cons. apply NoDup_cons. split; [|done].
  rewrite list_elem_of_fmap. intros (r' & Heq & Hin).
  rewrite Forall_forall in Hall. specialize (Hall _ Hin).
  unfold key_lt in Hall. lia.
Qed.

(** A store is determined by its rows: two sorted frames with the same
    rows are the same frame. *)
Lemma sorted_Permutation_eq df1 df2 :
  StronglySorted key_lt df1 → StronglySorted key_lt df2 →
  df1 ≡ₚ df2 → df1 = df2.
Proof.
  apply StronglySorted_unique_strong.
  unfold key_lt. intros; lia.
Qed.

(** The frame after lines 39-44, up to the order of its rows. *)
Lemma concat_entry_Permutation df t v :
  concat_entry df t v ≡ₚ
    filter (λ r, r.1 ≠ t) (drop_duplicated_keep_last df) ++ [(t, v)].
Proof.
  unfold concat_entry.
  by rewrite sort_index_Permutation, drop_duplicated_app_entry.
Qed.

Lemma concat_entry_sorted df t v :
  StronglySorted key_lt (concat_entry df t v).
Proof. apply sort_index_sorted, drop_duplicated_NoDup. Qed.

Lemma concat_entry_elem_of df t v : (t, v) ∈ concat_entry df t v.
Proof. rewrite concat_entry_Permutation, elem_of_app. right. by left. Qed.

Lemma concat_entry_value df t v v' :
  (t, v') ∈ concat_entry df t v → v' = v.
Proof.
  rewrite concat_entry_Permutation, elem_of_app, list_elem_of_filter.
  rewrite list_elem_of_singleton. simpl.
  intros [[Hne _]|Heq]; [done | by inversion Heq].
Qed.

Lemma filter_concat_entry df t v :
  filter (λ r, r.1 ≠ t) (concat_entry df t v) ≡ₚ
    filter (λ r, r.1 ≠ t) (drop_duplicated_keep_last df).
Proof.
  rewrite concat_entry_Permutation, filter_app.
  rewrite filter_cons_False by (simpl; intros Hne; by apply Hne).
  rewrite filter_nil, app_nil_r, list_filter_filter.
  apply reflexive_eq, list_filter_iff. intros r. tauto.
Qed.

(** A second entry at the same timestamp replaces the first. *)
Lemma concat_entry_twice df t v1 v2 :
  concat_entry (concat_entry df t v1) t v2 = concat_entry df t v2.
Proof.
  apply sorted_Permutation_eq; try apply concat_entry_sorted.
  rewrite (concat_entry_Permutation (concat_entry df t v1)).
  rewrite drop_duplicated_id
    by apply key_lt_sorted_NoDup, concat_entry_sorted.
  by rewrite filter_concat_entry, concat_entry_Permutation.
Qed.

Lemma concat_entry_length df t v1 v2 :
  length (concat_entry df t v1) = length (concat_entry df t v2).
Proof.
  rewrite !concat_entry_Permutation, !length_app. done.
Qed.

End store.

(** ** The methods *)

Section methods.
Context (L : Libraries).
Implicit Types (s : Self L) (now : Z) (live : num).

Ltac run :=
  unfold detect_leak, infer, ingest, forecast_expected_usage, train_models,
    try_except, getattr, fitted, call, modify, get,
    mbind, M_bind, mret, M_ret; simpl.

(** The forecast step always yields a value and leaves the state alone. *)
Lemma forecast_expected_usage_run s :
  forecast_expected_usage L s =
    (Ok (match model_fit s with
         | Some fit =>
             match arima_forecast L fit with
             | Ok future_forecast => round2 future_forecast
             | Raise _ => round2 (mean (df s))
             end
         | None => round2 (mean (df s))
         end), s).
Proof.
  run. destruct (model_fit s) as [fit|]; simpl; [|done].
  by destruct (arima_forecast L fit).
Qed.

Lemma infer_state s live : (infer L live s).2 = s.
Proof.
  unfold infer, mbind, M_bind. rewrite forecast_expected_usage_run. run.
  destruct (iso_forest s) as [[|forest]|]; simpl; try done.
  destruct (decision_function L forest live) as [score|e]; simpl; [|done].
  by destruct (leak_classifier _ _ _) as [[? ?] ?].
Qed.

(** What [infer] returns once the scorer has answered. *)
Lemma infer_scored s live forest score :
  iso_forest s = Some (Fitted forest) →
  decision_function L forest live = Ok score →
  infer L live s =
    (Ok {| live_flow_rate := live;
           expected_usage :=
             match (forecast_expected_usage L s).1 with
             | Ok v => v
             | Raise _ => NaN
             end;
           leak_status :=
             (leak_classifier live (mean (df s)) score).1.1;
           leak_probability :=
             (leak_classifier live (mean (df s)) score).1.2 |}, s).
Proof.
  intros Hf Hs.
  unfold infer, mbind, M_bind. rewrite forecast_expected_usage_run. run.
  rewrite Hf. simpl. rewrite Hs. simpl.
  by destruct (leak_classifier _ _ _) as [[? ?] ?].
Qed.

Lemma infer_no_forest s live :
  iso_forest s = None →
  infer L live s = (Raise (AttributeError "iso_forest"), s).
Proof.
  intros Hf.
  unfold infer, mbind, M_bind. rewrite forecast_expected_usage_run. run.
  by rewrite Hf.
Qed.

(** Training is skipped on a series without observations. *)
Lemma train_models_skip s :
  dropna (df s) = [] → train_models L s = (Ok tt, s).
Proof. intros H. run. by rewrite H. Qed.

Lemma train_models_df s : df (train_models L s).2 = df s.
Proof.
  run. destruct (dropna (df s)) as [|r rest]; [done|].
  destruct (ARIMA L (r :: rest)) as [m|]; simpl; [|done].
  destruct (arima_fit L m); simpl; [|done].
  destruct (iso_fit L (r :: rest)); simpl; [|done].
  by destruct (prophet_fit L _).
Qed.

Lemma ingest_nothing s now total :
  (total = None ∨ total = Some NaN) → ingest L now total s = (Ok tt, s).
Proof. by intros [-> | ->]. Qed.

Lemma ingest_df s now usage :
  is_nan usage = false →
  df (ingest L now (Some usage) s).2 = concat_entry (df s) (floor_H now) usage.
Proof.
  intros H. unfold ingest. rewrite H.
  unfold mbind, M_bind, get, modify. by rewrite train_models_df.
Qed.

Lemma detect_leak_state s now live total :
  (detect_leak L now live total s).2 = (ingest L now total s).2.
Proof.
  unfold detect_leak, mbind, M_bind.
  destruct (ingest L now total s) as [[[]|e] s']; [|done].
  apply infer_state.
Qed.

Lemma detect_leak_df s now live usage :
  is_nan usage = false →
  df (detect_leak L now live (Some usage) s).2 =
    concat_entry (df s) (floor_H now) usage.
Proof. intros H. by rewrite detect_leak_state, ingest_df. Qed.

End methods.

(** ** Claims on [detect_leak], [load_data] and [train_models] *)

(** C1 (the code departs from the claim).  A history of eight hourly
    observations of -10 has mean -10; a live reading of 0 then lies above
    the mean, the ratio of line 60 is -2, and [detect_leak] returns
    probability -200, outside [0, 100]. *)
Theorem C1_probability_below_zero_on_negative_mean :
  main_detect_leak (sample_libraries 7 true (Fin 0))
      (Some (steady_history (-10))) (12 * hour) (Fin 0) None =
    Ok {| live_flow_rate := Fin 0;
          expected_usage := Fin (-10);
          leak_status := "Leak Detected";
          leak_probability := Fin (-200) |}
  /\ in_0_100 (Fin (-200)) = false.
Proof. split; vm_compute; reflexivity. Qed.

(** C6 (the code departs from the claim).  Without a file, line 18 never
    assigns [df] and [return df] raises [UnboundLocalError]; the constructor
    fails instead of yielding an empty store. *)
Theorem C6_missing_file_raises :
  forall L : Libraries,
    load_data None = Raise (UnboundLocalError "df")
    /\ init L None = Raise (UnboundLocalError "df").
Proof. intros L. split; reflexivity. Qed.

(** C8.  A call without a usable [total_water_usage] (absent or NaN)
    leaves the whole state as it was: the frame, the persisted file and the
    three models; whether the call returns or raises. *)
Theorem C8_no_observation_no_change :
  forall (L : Libraries) (s : Self L) now live total,
    total = None \/ total = Some NaN ->
    (detect_leak L now live total s).2 = s.
Proof.
  intros L s now live total H.
  by rewrite detect_leak_state, ingest_nothing.
Qed.

Lemma C8_no_observation_no_change_witness :
  (detect_leak _ (12 * hour) (Fin 0) (Some NaN)
     (sample_system 7 true (Fin 0) (steady_history 4))).2 =
    sample_system 7 true (Fin 0) (steady_history 4).
Proof.
  apply (C8_no_observation_no_change _
           (sample_system 7 true (Fin 0) (steady_history 4))
           (12 * hour) (Fin 0) (Some NaN)).
  right. reflexivity.
Defined.

(** [sample_system] is what the constructor builds. *)
Lemma sample_system_init :
  init (sample_libraries 7 true (Fin 0)) (Some (steady_history 4)) =
    Ok (sample_system 7 true (Fin 0) (steady_history 4))
  /\ init (sample_libraries 7 false (Fin 0)) (Some (steady_history 4)) =
    Ok (sample_system 7 false (Fin 0) (steady_history 4)).
Proof. split; vm_compute; reflexivity. Qed.

(** C5, as stated, fails for a failing fit: on a system built from a file
    without rows, the first observation makes [train_models] fit ARIMA on
    one row; the fit raises and the error reaches the caller of
    [detect_leak]. *)
Lemma C5_fit_failure_propagates :
  let L := sample_libraries 7 true (Fin 0) in
  init L (Some []) = Ok (empty_system L)
  /\ arima_fit L (concat_entry [] (floor_H 7200) (Fin 5)) =
       Raise (LibraryError "fit: too few observations")
  /\ (detect_leak L 7200 (Fin 0) (Some (Fin 5)) (empty_system L)).1 =
       Raise (LibraryError "fit: too few observations").
Proof. repeat split; vm_compute; reflexivity. Qed.

Lemma dropna_concat_entry df t usage :
  is_nan usage = false -> dropna (concat_entry df t usage) <> [].
Proof.
  intros Hu Hnil.
  assert ((t, usage) ∈ dropna (concat_entry df t usage)) as Hin.
  { apply list_elem_of_filter. split; [done|]. apply concat_entry_elem_of. }
  rewrite Hnil in Hin. by apply elem_of_nil in Hin.
Qed.

(** A fit that fails during the retraining of [detect_leak] itself is
    outside the [try] block: its error reaches the caller. *)
Lemma detect_leak_fit_failure (L : Libraries) (s : Self L)
    now live usage model e :
  is_nan usage = false ->
  ARIMA L (dropna (concat_entry (df s) (floor_H now) usage)) = Ok model ->
  arima_fit L model = Raise e ->
  (detect_leak L now live (Some usage) s).1 = Raise e.
Proof.
  intros Hu Hm Hfit.
  unfold detect_leak, ingest, mbind, M_bind, get, modify. rewrite Hu.
  unfold train_models, mbind, M_bind, get, call, modify. simpl.
  pose proof (dropna_concat_entry (df s) (floor_H now) usage Hu) as Hne.
  destruct (dropna (concat_entry (df s) (floor_H now) usage)) as [|r rest];
    [done|].
  rewrite Hm. simpl. by rewrite Hfit.
Qed.

(** C5 (amended).  When the one-step forecast throws, [detect_leak] takes
    the series mean rounded to 2 decimals as [expected_usage] and the
    forecast error does not propagate: the call returns as soon as the
    outlier scorer answers.  [s'] is the state after lines 38-46, with the
    new observation when there is one. *)
Theorem C5_forecast_fallback :
  forall (L : Libraries) (s s' : Self L) now live total fit e forest score,
    ingest L now total s = (Ok tt, s') ->
    model_fit s' = Some fit ->
    arima_forecast L fit = Raise e ->
    iso_forest s' = Some (Fitted forest) ->
    decision_function L forest live = Ok score ->
    exists r, detect_leak L now live total s = (Ok r, s')
              /\ expected_usage r = round2 (mean (df s')).
Proof.
  intros L s s' now live total fit e forest score Hin Hfit Hfc Hf Hs.
  unfold detect_leak, mbind, M_bind. rewrite Hin.
  rewrite (infer_scored L s' live forest score Hf Hs).
  eexists. split; [reflexivity|]. simpl.
  rewrite forecast_expected_usage_run. simpl.
  by rewrite Hfit, Hfc.
Qed.

Lemma C5_forecast_fallback_witness :
  exists r,
    detect_leak _ (12 * hour) (Fin 0) None
        (sample_system 7 false (Fin 0) (steady_history 4))
      = (Ok r, sample_system 7 false (Fin 0) (steady_history 4))
    /\ expected_usage r = round2 (mean (steady_history 4)).
Proof.
  apply (C5_forecast_fallback _
           (sample_system 7 false (Fin 0) (steady_history 4))
           (sample_system 7 false (Fin 0) (steady_history 4))
           (12 * hour) (Fin 0) None (steady_history 4)
           (LibraryError "forecast") tt (Fin 0)).
  - reflexivity.
  - reflexivity.
  - reflexivity.
  - reflexivity.
  - reflexivity.
Defined.

(** Further observations at the timestamp of the first one leave the frame
    as the first one left it. *)
Lemma feed_same_hour (L : Libraries) (s : Self L) t usage calls :
  is_nan usage = false ->
  Forall (fun c : Z * num => floor_H c.1 = t) calls ->
  concat_entry (df s) t usage = df s ->
  df (feed L usage s calls) = df s.
Proof.
  intros Hu Hcalls. revert s.
  induction Hcalls as [|c calls Hc _ IH]; intros s Hs; [done|].
  change (feed L usage s (c :: calls))
    with (feed L usage (detect_leak L c.1 c.2 (Some usage) s).2 calls).
  assert (df (detect_leak L c.1 c.2 (Some usage) s).2 = df s) as Hstep
    by (by rewrite detect_leak_df, Hc).
  rewrite IH; [exact Hstep | by rewrite Hstep].
Qed.

(** C7.  After a first observation [usage] in some hour, any number of
    further calls with the same observation in the same hour leave the
    frame unchanged, so its size does not grow; and the frame holds, at the
    hour's timestamp, the value written. *)
Theorem C7_append_idempotent :
  forall (L : Libraries) (s : Self L) now live usage calls,
    is_nan usage = false ->
    Forall (fun c : Z * num => floor_H c.1 = floor_H now) calls ->
    let s1 := (detect_leak L now live (Some usage) s).2 in
    let sn := feed L usage s1 calls in
    df sn = df s1
    /\ length (df sn) = length (df s1)
    /\ (floor_H now, usage) ∈ df sn
    /\ (forall v, (floor_H now, v) ∈ df sn -> v = usage).
Proof.
  intros L s now live usage calls Hu Hcalls s1 sn.
  assert (df s1 = concat_entry (df s) (floor_H now) usage) as Hs1
    by (by apply detect_leak_df).
  assert (df sn = df s1) as Hsn.
  { apply (feed_same_hour L s1 (floor_H now)); [done..|].
    rewrite Hs1. apply concat_entry_twice. }
  rewrite Hsn, Hs1. repeat split.
  - apply concat_entry_elem_of.
  - apply concat_entry_value.
Qed.

Lemma C7_append_idempotent_witness :
  let L := sample_libraries 7 true (Fin 0) in
  let s1 := (detect_leak L (12 * hour + 5) (Fin 3) (Some (Fin 6))
               (sample_system 7 true (Fin 0) (steady_history 4))).2 in
  let sn := feed L (Fin 6) s1
              [(12 * hour + 70, Fin 1); (13 * hour - 1, Fin 9)] in
  df sn = df s1 /\ length (df sn) = 9%nat.
Proof.
  intros L s1 sn.
  destruct (C7_append_idempotent L
              (sample_system 7 true (Fin 0) (steady_history 4))
              (12 * hour + 5) (Fin 3) (Fin 6)
              [(12 * hour + 70, Fin 1); (13 * hour - 1, Fin 9)])
    as (Hdf & Hlen & _).
  - reflexivity.
  - repeat constructor.
  - split; [exact Hdf|]. fold L in Hlen. fold s1 in Hlen. fold sn in Hlen.
    rewrite Hlen. vm_compute. reflexivity.
Defined.

(** The last write wins: a second observation in the same hour replaces the
    first and the frame keeps its size. *)
Lemma detect_leak_last_write_wins (L : Libraries) (s : Self L)
    now1 now2 live1 live2 usage1 usage2 :
  is_nan usage1 = false -> is_nan usage2 = false ->
  floor_H now2 = floor_H now1 ->
  let s1 := (detect_leak L now1 live1 (Some usage1) s).2 in
  let s2 := (detect_leak L now2 live2 (Some usage2) s1).2 in
  length (df s2) = length (df s1)
  /\ (forall v, (floor_H now1, v) ∈ df s2 <-> v = usage2).
Proof.
  intros H1 H2 Hh s1 s2. unfold s2, s1.
  rewrite !detect_leak_df, Hh, concat_entry_twice by done.
  split; [apply concat_entry_length|].
  intros v. split; [apply concat_entry_value|].
  intros ->. apply concat_entry_elem_of.
Qed.

(** ** Loading a file without observations *)

Lemma dropna_all_missing (rows : list row) :
  Forall (fun r : row => is_nan r.2 = true) rows -> dropna rows = [].
Proof.
  induction 1 as [|r rows Hr _ IH]; [done|].
  unfold dropna in *. rewrite filter_cons_False by congruence. exact IH.
Qed.

Lemma drop_duplicated_Forall (P : row -> Prop) (rows : list row) :
  Forall P rows -> Forall P (drop_duplicated_keep_last rows).
Proof.
  induction 1 as [|r rows Hr _ IH]; [constructor|]. simpl.
  destruct (decide (r.1 ∈ rows.*1)); [done | by constructor].
Qed.

Lemma ffill_all_missing (rows : list row) :
  Forall (fun r : row => is_nan r.2 = true) rows -> ffill_from NaN rows = rows.
Proof.
  induction 1 as [|[t v] rows Hr _ IH]; [done|]. simpl in *.
  rewrite Hr, IH. by destruct v.
Qed.

Lemma fillna_all_missing (rows : list row) :
  Forall (fun r : row => is_nan r.2 = true) rows -> fillna NaN rows = rows.
Proof.
  induction 1 as [|[t v] rows Hr _ IH]; [done|]. unfold fillna in *. simpl in *.
  rewrite Hr, IH. by destruct v.
Qed.

Lemma load_data_all_missing (rows : list row) :
  Forall (fun r : row => is_nan r.2 = true) rows ->
  exists d, load_data (Some rows) = Ok d
            /\ Forall (fun r : row => is_nan r.2 = true) d.
Proof.
  intros Hrows.
  assert (Forall (fun r : row => is_nan r.2 = true)
            (sort_index (drop_duplicated_keep_last rows))) as Hd.
  { rewrite sort_index_Permutation. by apply drop_duplicated_Forall. }
  exists (sort_index (drop_duplicated_keep_last rows)). split; [|done].
  unfold load_data, ffill. rewrite ffill_all_missing by done.
  unfold mean. rewrite dropna_all_missing by done.
  by rewrite fillna_all_missing.
Qed.

(** C10.  Training is skipped, and the state untouched, whenever the
    cleaned series is empty.  A system built from a file whose rows all
    miss their usage therefore has no outlier scorer, and every call of
    [detect_leak] that brings no observation raises [AttributeError] at the
    scoring step (line 56) and leaves the system in that state. *)
Theorem C10_untrained_system_raises :
  forall L : Libraries,
    (forall s : Self L, dropna (df s) = [] -> train_models L s = (Ok tt, s))
    /\ (forall rows,
         Forall (fun r : row => is_nan r.2 = true) rows ->
         exists self,
           init L (Some rows) = Ok self
           /\ iso_forest self = None
           /\ forall now live total,
                total = None \/ total = Some NaN ->
                detect_leak L now live total self =
                  (Raise (AttributeError "iso_forest"), self)).
Proof.
  intros L. split; [apply train_models_skip|].
  intros rows Hrows.
  destruct (load_data_all_missing rows Hrows) as (d & Hload & Hd).
  unfold init. rewrite Hload.
  rewrite train_models_skip by (by apply dropna_all_missing).
  eexists. split; [reflexivity|]. split; [reflexivity|].
  intros now live total Htotal.
  unfold detect_leak, mbind, M_bind. rewrite ingest_nothing by done.
  by apply infer_no_forest.
Qed.

Lemma C10_untrained_system_raises_witness :
  exists self,
    init (sample_libraries 7 true (Fin 0)) (Some [(0, NaN); (hour, NaN)])
      = Ok self
    /\ detect_leak _ (12 * hour) (Fin 3) None self =
         (Raise (AttributeError "iso_forest"), self).
Proof.
  destruct (C10_untrained_system_raises (sample_libraries 7 true (Fin 0)))
    as [_ H].
  destruct (H [(0, NaN); (hour, NaN)]) as (self & Hinit & _ & Hcall).
  - repeat constructor.
  - exists self. split; [exact Hinit|]. apply Hcall. by left.
Defined.

(** ** The trailing week *)

Lemma searchsorted_right_after (rows : list row) t :
  StronglySorted key_lt rows ->
  Forall (fun r : row => t < r.1) (searchsorted_right rows t).
Proof.
  induction 1 as [|r rest Hs IH Hall]; [constructor|]. simpl.
  destruct (decide (r.1 <= t)) as [Hle|Hgt]; [exact IH|].
  constructor; [lia|].
  eapply Forall_impl; [exact Hall|]. unfold key_lt. intros; lia.
Qed.

Lemma searchsorted_right_Forall (P : row -> Prop) (rows : list row) t :
  Forall P rows -> Forall P (searchsorted_right rows t).
Proof.
  induction 1 as [|r rest Hr Hrest IH]; [constructor|]. simpl.
  destruct (decide (r.1 <= t)); [exact IH | by constructor].
Qed.

Lemma sorted_last_bound (rows : list row) (r : row) :
  StronglySorted key_lt rows -> last rows = Some r ->
  Forall (fun r' : row => r'.1 <= r.1) rows.
Proof.
  induction 1 as [|r0 rest Hs IH Hall]; [constructor|]. intros Hlast.
  destruct rest as [|r1 rest'].
  - simpl in Hlast. injection Hlast as <-. by repeat constructor.
  - rewrite last_cons_cons in Hlast. specialize (IH Hlast).
    constructor; [|exact IH].
    apply Forall_inv in Hall, IH. unfold key_lt in Hall. lia.
Qed.

(** On a sorted frame, [last("7D")] keeps rows of the seven times 24 hours
    that end with the last row. *)
Lemma last_7D_window (rows : list row) :
  StronglySorted key_lt rows ->
  exists t, Forall (fun r : row => t - 7 * day < r.1 <= t) (last_7D rows).
Proof.
  intros Hs. unfold last_7D.
  destruct (last rows) as [r|] eqn:Hlast; [|exists 0; constructor].
  exists r.1.
  pose proof (searchsorted_right_after rows (r.1 - 7 * day) Hs) as Hlo.
  pose proof (searchsorted_right_Forall _ rows (r.1 - 7 * day)
                (sorted_last_bound rows r Hs Hlast)) as Hhi.
  rewrite Forall_forall in *. intros x Hx. split; auto.
Qed.

Lemma min_index_bounds (rows : list row) t0 lo hi :
  Forall (fun r : row => lo < r.1 <= hi) rows -> lo < t0 <= hi ->
  lo < min_index rows t0 <= hi.
Proof. induction 1; simpl; intros; [done|]. lia. Qed.

Lemma max_index_bounds (rows : list row) t0 lo hi :
  Forall (fun r : row => lo < r.1 <= hi) rows -> lo < t0 <= hi ->
  lo < max_index rows t0 <= hi.
Proof. induction 1; simpl; intros; [done|]. lia. Qed.

(** Rows within seven times 24 hours fall on at most eight calendar days. *)
Lemma resample_D_sum_window (rows : list row) t :
  Forall (fun r : row => t - 7 * day < r.1 <= t) rows ->
  (length (resample_D_sum rows) <= 8)%nat.
Proof.
  intros Hall. destruct rows as [|r rest]; [simpl; lia|].
  unfold resample_D_sum. rewrite length_map, length_seqZ.
  apply Forall_cons in Hall as [Hr Hrest].
  pose proof (min_index_bounds rest r.1 _ _ Hrest Hr) as Hmin.
  pose proof (max_index_bounds rest r.1 _ _ Hrest Hr) as Hmax.
  unfold day_of, day in *.
  assert (t / 86400 - 7 <= min_index rest r.1 / 86400)
    by (apply Z.div_le_lower_bound; [lia|];
        pose proof (Z.mul_div_le t 86400); lia).
  assert (max_index rest r.1 / 86400 <= t / 86400)
    by (apply Z.div_le_mono; lia).
  lia.
Qed.

(** ** The frame of a running system is sorted *)

Lemma ffill_from_keys prev (rows : list row) :
  (ffill_from prev rows).*1 = rows.*1.
Proof.
  revert prev. induction rows as [|[t v] rows IH]; intros prev; [done|].
  simpl. destruct (is_nan v); simpl; by rewrite IH.
Qed.

Lemma fillna_keys value (rows : list row) : (fillna value rows).*1 = rows.*1.
Proof.
  induction rows as [|[t v] rows IH]; [done|].
  change (fillna value ((t, v) :: rows))
    with ((if is_nan v then (t, value) else (t, v)) :: fillna value rows).
  rewrite !fmap_cons, IH. by destruct (is_nan v).
Qed.

Lemma key_lt_sorted_keys (rows rows' : list row) :
  rows'.*1 = rows.*1 -> StronglySorted key_lt rows ->
  StronglySorted key_lt rows'.
Proof.
  intros Hk Hs. revert rows' Hk.
  induction Hs as [|r rest Hs IH Hall]; intros [|r' rest'] Hk;
    try discriminate; [constructor|].
  rewrite !fmap_cons in Hk. injection Hk as Hr Hrest.
  constructor; [by apply IH|].
  rewrite Forall_forall in *. intros x Hx.
  assert (x.1 ∈ rest.*1) as Hin
    by (rewrite <- Hrest; by apply list_elem_of_fmap_2).
  apply list_elem_of_fmap in Hin as (y & Hy & Hyin).
  specialize (Hall y Hyin). unfold key_lt in *. lia.
Qed.

Lemma init_sorted (L : Libraries) file (self : Self L) :
  init L file = Ok self -> StronglySorted key_lt (df self).
Proof.
  unfold init. destruct file as [rows|]; [|discriminate]. simpl.
  match goal with
  | |- context [train_models L ?s0] =>
      pose proof (train_models_df L s0) as Hdf;
      destruct (train_models L s0) as [[[]|e] s1]
  end; [|discriminate].
  intros [= <-]. simpl in Hdf. rewrite Hdf.
  eapply key_lt_sorted_keys;
    [|apply sort_index_sorted, (drop_duplicated_NoDup rows)].
  unfold ffill. by rewrite fillna_keys, ffill_from_keys.
Qed.

Lemma detect_leak_sorted (L : Libraries) (s : Self L) now live total :
  StronglySorted key_lt (df s) ->
  StronglySorted key_lt (df (detect_leak L now live total s).2).
Proof.
  intros Hs. destruct total as [usage|].
  - destruct (is_nan usage) eqn:Hu.
    + rewrite detect_leak_state. unfold ingest. by rewrite Hu.
    + rewrite detect_leak_df by done. apply concat_entry_sorted.
  - by rewrite detect_leak_state.
Qed.

Lemma predict_weekly_usage_state (L : Libraries) (s : Self L) now :
  (predict_weekly_usage L now s).2 = s.
Proof.
  unfold predict_weekly_usage, getattr, fitted, call, get,
    mbind, M_bind, mret, M_ret.
  by destruct (prophet_model s) as [[|prophet]|].
Qed.

(** The frame of a running system is sorted, without duplicated
    timestamps. *)
Lemma reachable_sorted (L : Libraries) (s : Self L) :
  reachable L s -> StronglySorted key_lt (df s).
Proof.
  induction 1 as [file s Hinit|s now live total _ IH|s now _ IH].
  - by apply (init_sorted L file).
  - by apply detect_leak_sorted.
  - by rewrite predict_weekly_usage_state.
Qed.

(** The sizes of the weekly forecast on a sorted frame. *)
Lemma predict_weekly_usage_sizes (L : Libraries) (s : Self L) now prophet :
  prophet_model s = Some (Fitted prophet) ->
  StronglySorted key_lt (df s) ->
  exists w,
    predict_weekly_usage L now s = (Ok w, s)
    /\ (predicted_next_week w).*1 = date_range_7D now
    /\ length (predicted_next_week w) = 7%nat
    /\ (length (last_week_usage w) <= 8)%nat.
Proof.
  intros Hp Hs.
  unfold predict_weekly_usage, getattr, fitted, get, mbind, M_bind, mret, M_ret.
  rewrite Hp. simpl. eexists. split; [reflexivity|]. simpl.
  split; [reflexivity|]. split; [reflexivity|].
  destruct (last_7D_window (df s) Hs) as [t Ht].
  by apply (resample_D_sum_window _ t).
Qed.

(** ** Claims on [predict_weekly_usage] *)

(** C9, as stated, fails: with 200 hourly observations the last one falls
    7 hours into day 8 and the window of seven times 24 hours starts 8
    hours into day 1; the trailing rows cover the days 1 to 8, and
    [last_week_usage] has 8 entries. *)
Lemma C9_eight_trailing_days :
  let L := sample_libraries 7 true (Fin 0) in
  let self := sample_system 7 true (Fin 0) (hourly_history 200 4) in
  init L (Some (hourly_history 200 4)) = Ok self
  /\ exists w,
       (predict_weekly_usage L (200 * hour) self).1 = Ok w
       /\ length (last_week_usage w) = 8%nat.
Proof.
  split; [vm_compute; reflexivity|].
  eexists. split; vm_compute; reflexivity.
Qed.

(** C9 (amended).  In every state of a running system with a fitted
    seasonal forecaster, the weekly forecast has exactly 7 predicted
    entries, one per requested date, and at most 8 trailing entries: the
    window of seven times 24 hours that ends at the last observation can
    touch 8 calendar days. *)
Theorem C9_weekly_forecast_sizes :
  forall (L : Libraries) (s : Self L) now prophet,
    reachable L s ->
    prophet_model s = Some (Fitted prophet) ->
    exists w,
      predict_weekly_usage L now s = (Ok w, s)
      /\ (predicted_next_week w).*1 = date_range_7D now
      /\ length (predicted_next_week w) = 7%nat
      /\ (length (last_week_usage w) <= 8)%nat.
Proof.
  intros L s now prophet Hr Hp.
  apply (predict_weekly_usage_sizes L s now prophet Hp).
  by apply reachable_sorted.
Qed.

Lemma C9_weekly_forecast_sizes_witness :
  exists w,
    predict_weekly_usage _ (200 * hour)
       (sample_system 7 true (Fin 0) (hourly_history 200 4))
      = (Ok w, sample_system 7 true (Fin 0) (hourly_history 200 4))
    /\ length (predicted_next_week w) = 7%nat
    /\ (length (last_week_usage w) <= 8)%nat.
Proof.
  destruct (C9_weekly_forecast_sizes _
              (sample_system 7 true (Fin 0) (hourly_history 200 4))
              (200 * hour) (resample_D_sum (hourly_history 200 4)))
    as (w & Hrun & _ & Hp & Hl).
  - apply (reachable_init _ (Some (hourly_history 200 4))).
    vm_compute. reflexivity.
  - reflexivity.
  - exists w. auto.
Defined.

(** ** [load_data]: what the loaded frame is *)

Lemma last_write_drop_duplicated (rows : list row) t v :
  last_write rows t v -> (t, v) ∈ drop_duplicated_keep_last rows.
Proof.
  intros (l1 & l2 & -> & Ht).
  induction l1 as [|r l1 IH]; simpl.
  - rewrite decide_False by done. by left.
  - destruct (decide (r.1 ∈ (l1 ++ (t, v) :: l2).*1)); [done | by right].
Qed.

Lemma ffill_from_keeps prev (rows : list row) t v :
  is_nan v = false -> (t, v) ∈ rows -> (t, v) ∈ ffill_from prev rows.
Proof.
  intros Hv. revert prev.
  induction rows as [|[t' v'] rows IH]; intros prev Hin; [done|].
  apply elem_of_cons in Hin as [[= <- <-]|Hin]; simpl.
  - rewrite Hv. by left.
  - destruct (is_nan v'); right; by apply IH.
Qed.

Lemma fillna_keeps value (rows : list row) t v :
  is_nan v = false -> (t, v) ∈ rows -> (t, v) ∈ fillna value rows.
Proof.
  intros Hv Hin. unfold fillna.
  apply (list_elem_of_fmap_2' _ _ (t, v)); [done|]. simpl. by rewrite Hv.
Qed.

Lemma sort_index_id (rows : list row) :
  StronglySorted key_lt rows -> sort_index rows = rows.
Proof.
  intros Hs. apply sorted_Permutation_eq; [|done|apply sort_index_Permutation].
  by apply sort_index_sorted, key_lt_sorted_NoDup.
Qed.

Lemma NoDup_keys_value (rows : list row) t v v' :
  NoDup rows.*1 -> (t, v) ∈ rows -> (t, v') ∈ rows -> v = v'.
Proof.
  induction rows as [|[t0 v0] rows IH]; [by intros _ Hin; inv Hin|].
  rewrite fmap_cons, NoDup_cons. simpl. intros [Hnot Hnd] H1 H2.
  apply elem_of_cons in H1 as [H1|H1]; apply elem_of_cons in H2 as [H2|H2].
  - congruence.
  - exfalso. apply Hnot. apply (list_elem_of_fmap_2' _ _ (t, v')); [done|].
    simpl. congruence.
  - exfalso. apply Hnot. apply (list_elem_of_fmap_2' _ _ (t, v)); [done|].
    simpl. congruence.
  - by apply IH.
Qed.

(** The frame [load_data] returns, and its timestamps. *)
Lemma load_data_frame (rows : list row) :
  let sorted := sort_index (drop_duplicated_keep_last rows) in
  load_data (Some rows) = Ok (fillna (mean (ffill sorted)) (ffill sorted))
  /\ (fillna (mean (ffill sorted)) (ffill sorted)).*1 = sorted.*1.
Proof.
  intros sorted. split; [done|].
  unfold ffill. by rewrite fillna_keys, ffill_from_keys.
Qed.

Lemma load_data_sorted (rows d : list row) :
  load_data (Some rows) = Ok d -> StronglySorted key_lt d.
Proof.
  destruct (load_data_frame rows) as [Hload Hkeys].
  rewrite Hload. intros [= <-].
  eapply key_lt_sorted_keys; [exact Hkeys|].
  apply sort_index_sorted, drop_duplicated_NoDup.
Qed.

(** X1.  Loading an existing file never raises; the frame is sorted by
    timestamp, strictly, and its timestamps are those of the file. *)
Theorem X1_load_data_sorted_unique :
  forall rows : list row,
    exists d,
      load_data (Some rows) = Ok d
      /\ StronglySorted key_lt d
      /\ NoDup d.*1
      /\ (forall t, t ∈ d.*1 <-> t ∈ rows.*1).
Proof.
  intros rows. destruct (load_data_frame rows) as [Hload Hkeys].
  eexists. split; [exact Hload|].
  assert (StronglySorted key_lt
            (fillna (mean (ffill (sort_index (drop_duplicated_keep_last rows))))
               (ffill (sort_index (drop_duplicated_keep_last rows))))) as Hs
    by (by apply (load_data_sorted rows)).
  split; [exact Hs|]. split; [by apply key_lt_sorted_NoDup|].
  intros t. rewrite Hkeys, sort_index_Permutation.
  apply drop_duplicated_keys.
Qed.

(** X2.  Of the rows of the file that share a timestamp the last one wins:
    when it holds a value, the loaded frame has this value, and no other,
    at the timestamp. *)
Theorem X2_load_data_keeps_last :
  forall (rows : list row) t v,
    last_write rows t v -> is_nan v = false ->
    exists d,
      load_data (Some rows) = Ok d
      /\ (t, v) ∈ d
      /\ (forall v', (t, v') ∈ d -> v' = v).
Proof.
  intros rows t v Hlast Hv. destruct (load_data_frame rows) as [Hload Hkeys].
  eexists. split; [exact Hload|].
  assert ((t, v) ∈ fillna
            (mean (ffill (sort_index (drop_duplicated_keep_last rows))))
            (ffill (sort_index (drop_duplicated_keep_last rows)))) as Hin.
  { apply fillna_keeps, ffill_from_keeps; try done.
    rewrite sort_index_Permutation. by apply last_write_drop_duplicated. }
  split; [exact Hin|]. intros v' Hin'.
  eapply NoDup_keys_value; [|exact Hin'|exact Hin].
  by apply key_lt_sorted_NoDup, (load_data_sorted rows).
Qed.

Lemma X2_load_data_keeps_last_witness :
  exists d,
    load_data (Some [(hour, Fin 1); (0, NaN); (hour, Fin 7)]) = Ok d
    /\ (hour, Fin 7) ∈ d
    /\ (forall v', (hour, v') ∈ d -> v' = Fin 7).
Proof.
  apply (X2_load_data_keeps_last
           [(hour, Fin 1); (0, NaN); (hour, Fin 7)] hour (Fin 7)).
  - exists [(hour, Fin 1); (0, NaN)], []. split; [reflexivity|].
    apply not_elem_of_nil.
  - reflexivity.
Defined.

(** ** [load_data]: missing cells and reloading *)

Lemma dropna_cons (r : row) (rows : list row) :
  dropna (r :: rows) = if is_nan r.2 then dropna rows else r :: dropna rows.
Proof.
  unfold dropna. destruct (is_nan r.2) eqn:Hr.
  - by rewrite filter_cons_False by congruence.
  - by rewrite filter_cons_True.
Qed.

Lemma dropna_no_missing (rows : list row) :
  no_missing rows -> dropna rows = rows.
Proof.
  induction 1 as [|r rows Hr _ IH]; [done|].
  by rewrite dropna_cons, Hr, IH.
Qed.

Lemma dropna_is_no_missing (rows : list row) : no_missing (dropna rows).
Proof.
  induction rows as [|r rows IH]; [constructor|].
  rewrite dropna_cons. destruct (is_nan r.2) eqn:Hr; [done | by constructor].
Qed.

Lemma ffill_from_no_missing prev (rows : list row) :
  no_missing rows -> ffill_from prev rows = rows.
Proof.
  intros H. revert prev.
  induction H as [|[t v] rows Hr _ IH]; intros prev; [done|].
  simpl in *. by rewrite Hr, IH.
Qed.

Lemma fillna_no_missing value (rows : list row) :
  no_missing rows -> fillna value rows = rows.
Proof.
  induction 1 as [|[t v] rows Hr _ IH]; [done|].
  change (fillna value ((t, v) :: rows))
    with ((if is_nan v then (t, value) else (t, v)) :: fillna value rows).
  simpl in Hr. by rewrite Hr, IH.
Qed.

Lemma fillna_NaN (rows : list row) : fillna NaN rows = rows.
Proof.
  induction rows as [|[t v] rows IH]; [done|].
  change (fillna NaN ((t, v) :: rows))
    with ((if is_nan v then (t, NaN) else (t, v)) :: fillna NaN rows).
  rewrite IH. by destruct v.
Qed.

Lemma fillna_fills value (rows : list row) :
  is_nan value = false -> no_missing (fillna value rows).
Proof.
  intros Hv. induction rows as [|[t v] rows IH]; [constructor|].
  change (fillna value ((t, v) :: rows))
    with ((if is_nan v then (t, value) else (t, v)) :: fillna value rows).
  constructor; [|exact IH]. by destruct (is_nan v) eqn:E.
Qed.

Lemma ffill_from_idem prev (rows : list row) :
  ffill_from prev (ffill_from prev rows) = ffill_from prev rows.
Proof.
  revert prev. induction rows as [|[t v] rows IH]; intros prev; [done|].
  simpl. destruct (is_nan v) eqn:Hv; simpl.
  - destruct (is_nan prev); by rewrite IH.
  - by rewrite Hv, IH.
Qed.

(** A sorted frame without missing cells is loaded as it is. *)
Lemma load_data_fixpoint (d : list row) :
  StronglySorted key_lt d -> no_missing d -> load_data (Some d) = Ok d.
Proof.
  intros Hs Hd. unfold load_data, ffill.
  rewrite drop_duplicated_id by by apply key_lt_sorted_NoDup.
  rewrite sort_index_id by done.
  rewrite ffill_from_no_missing by done.
  by rewrite fillna_no_missing.
Qed.

(** X3.  Loading is idempotent: loading the frame that [load_data]
    returned gives this frame again. *)
Theorem X3_load_data_idempotent :
  forall rows : list row,
    exists d, load_data (Some rows) = Ok d /\ load_data (Some d) = Ok d.
Proof.
  intros rows. destruct (load_data_frame rows) as [Hload _].
  eexists. split; [exact Hload|].
  set (y := ffill (sort_index (drop_duplicated_keep_last rows))) in *.
  assert (StronglySorted key_lt (fillna (mean y) y)) as Hs
    by (by apply (load_data_sorted rows)).
  destruct (is_nan (mean y)) eqn:Hm.
  - assert (mean y = NaN) as Hnan by (by destruct (mean y)).
    rewrite Hnan, fillna_NaN in *.
    unfold load_data.
    rewrite drop_duplicated_id by by apply key_lt_sorted_NoDup.
    rewrite sort_index_id by done.
    assert (ffill y = y) as -> by apply ffill_from_idem.
    by rewrite Hnan, fillna_NaN.
  - apply load_data_fixpoint; [done|]. by apply fillna_fills.
Qed.

Lemma series_sum_cons (r : row) (rows : list row) :
  series_sum (r :: rows) =
    if is_nan r.2 then series_sum rows else num_add r.2 (series_sum rows).
Proof.
  unfold series_sum. rewrite dropna_cons. by destruct (is_nan r.2).
Qed.





(** ** [train_models] and [detect_leak]: what a call leaves behind *)

Lemma train_models_csv_file (L : Libraries) (s : Self L) :
  csv_file (train_models L s).2 = csv_file s.
Proof.
  unfold train_models, call, modify, get, mbind, M_bind, mret, M_ret. simpl.
  destruct (dropna (df s)) as [|r rest]; [done|].
  destruct (ARIMA L (r :: rest)) as [m|]; simpl; [|done].
  destruct (arima_fit L m); simpl; [|done].
  destruct (iso_fit L (r :: rest)); simpl; [|done].
  by destruct (prophet_fit L _).
Qed.

(** A training that returns has fitted the three models on the cleaned
    frame, the seasonal one on its daily sums. *)
Lemma train_models_ok (L : Libraries) (s s' : Self L) :
  train_models L s = (Ok tt, s') -> dropna (df s) <> [] ->
  exists model fit forest prophet,
    ARIMA L (dropna (df s)) = Ok model
    /\ arima_fit L model = Ok fit
    /\ iso_fit L (dropna (df s)) = Ok forest
    /\ prophet_fit L (resample_D_sum (dropna (df s))) = Ok prophet
    /\ s' = Build_Self L (csv_file s) (df s) (Some model) (Some fit)
               (Some (Fitted forest)) (Some (Fitted prophet)).
Proof.
  unfold train_models, call, modify, get, mbind, M_bind, mret, M_ret.
  cbn beta iota.
  generalize (resample_D_sum (dropna (df s))). intros daily.
  destruct (dropna (df s)) as [|r rest]; [by intros _ H|]. intros Hrun _.
  destruct (ARIMA L (r :: rest)) as [m|]; [|done].
  destruct (arima_fit L m) as [fit|] eqn:Hfit; [|done].
  cbn beta iota in Hrun.
  destruct (iso_fit L (r :: rest)) as [forest|]; [|done].
  cbn beta iota in Hrun.
  destruct (prophet_fit L daily) as [prophet|]; [|done].
  injection Hrun as <-. by exists m, fit, forest, prophet.
Qed.

Lemma ingest_csv_file (L : Libraries) (s : Self L) now usage :
  is_nan usage = false ->
  csv_file (ingest L now (Some usage) s).2 =
    Some (concat_entry (df s) (floor_H now) usage).
Proof.
  intros H. unfold ingest. rewrite H.
  unfold mbind, M_bind, get, modify. by rewrite train_models_csv_file.
Qed.

Lemma concat_entry_frame (d : list row) t usage :
  StronglySorted key_lt d ->
  concat_entry d t usage ≡ₚ filter (λ r : row, r.1 ≠ t) d ++ [(t, usage)].
Proof.
  intros Hs. rewrite concat_entry_Permutation.
  by rewrite drop_duplicated_id by by apply key_lt_sorted_NoDup.
Qed.

Lemma filter_key_length (d : list row) t :
  NoDup d.*1 ->
  S (length (filter (λ r : row, r.1 ≠ t) d)) =
    if decide (t ∈ d.*1) then length d else S (length d).
Proof.
  induction d as [|r d IH]; [done|].
  rewrite fmap_cons, NoDup_cons. intros [Hr Hd]. specialize (IH Hd).
  destruct (decide (r.1 = t)) as [Heq|Hne].
  - rewrite filter_cons_False by (intros Hne; by apply Hne).
    rewrite decide_True by (rewrite <- Heq; by left).
    rewrite decide_False in IH by (by rewrite <- Heq). simpl. lia.
  - rewrite filter_cons_True by done. simpl.
    destruct (decide (t ∈ d.*1)) as [Hin|Hnin].
    + rewrite decide_True by (by right). lia.
    + rewrite decide_False; [lia|].
      rewrite not_elem_of_cons. split; [congruence | done].
Qed.

Lemma concat_entry_no_missing (d : list row) t usage :
  no_missing d -> is_nan usage = false -> no_missing (concat_entry d t usage).
Proof.
  intros Hd Hu. unfold no_missing.
  rewrite concat_entry_Permutation, Forall_app. split.
  - apply Forall_forall. intros x Hx.
    apply list_elem_of_filter in Hx as [_ Hx].
    assert (Forall (fun r : row => is_nan r.2 = false)
              (drop_duplicated_keep_last d)) as Hdd
      by (by apply drop_duplicated_Forall).
    rewrite Forall_forall in Hdd. auto.
  - by repeat constructor.
Qed.

Lemma detect_leak_stored (L : Libraries) (s : Self L) now live usage :
  is_nan usage = false ->
  df (detect_leak L now live (Some usage) s).2 =
    concat_entry (df s) (floor_H now) usage
  /\ csv_file (detect_leak L now live (Some usage) s).2 =
       Some (df (detect_leak L now live (Some usage) s).2).
Proof.
  intros Hu. split; [by apply detect_leak_df|].
  by rewrite detect_leak_df, detect_leak_state, ingest_csv_file.
Qed.

(** X5.  An observation is stored and persisted before anything can fail:
    whatever the call returns or raises (in the retraining or in the
    classification), the frame it leaves is the old one with the
    observation at the current hour, and the file holds this frame. *)
Theorem X5_observation_stored_and_persisted :
  forall (L : Libraries) (s : Self L) now live usage,
    is_nan usage = false ->
    let s' := (detect_leak L now live (Some usage) s).2 in
    df s' = concat_entry (df s) (floor_H now) usage
    /\ csv_file s' = Some (df s')
    /\ (floor_H now, usage) ∈ df s'.
Proof.
  intros L s now live usage Hu s'.
  destruct (detect_leak_stored L s now live usage Hu) as [Hdf Hcsv].
  split; [exact Hdf|]. split; [exact Hcsv|].
  unfold s'. rewrite Hdf. apply concat_entry_elem_of.
Qed.

Lemma X5_observation_stored_and_persisted_witness :
  let L := sample_libraries 7 true (Fin 0) in
  let s' := (detect_leak L 7200 (Fin 0) (Some (Fin 5)) (empty_system L)).2 in
  (detect_leak L 7200 (Fin 0) (Some (Fin 5)) (empty_system L)).1 =
    Raise (LibraryError "fit: too few observations")
  /\ df s' = [(7200, Fin 5)]
  /\ csv_file s' = Some (df s').
Proof.
  intros L s'.
  destruct (X5_observation_stored_and_persisted L (empty_system L)
              7200 (Fin 0) (Fin 5) eq_refl) as (Hdf & Hcsv & _).
  split; [vm_compute; reflexivity|]. split; [exact Hdf | exact Hcsv].
Defined.

(** X6.  On a sorted frame an observation touches one timestamp only: the
    rows of every other timestamp are kept as they are, and the frame grows
    by one row when the hour is new and keeps its size when it is not. *)
Theorem X6_observation_frame_effect :
  forall (L : Libraries) (s : Self L) now live usage,
    StronglySorted key_lt (df s) ->
    is_nan usage = false ->
    let s' := (detect_leak L now live (Some usage) s).2 in
    (forall t v, t <> floor_H now -> (t, v) ∈ df s' <-> (t, v) ∈ df s)
    /\ length (df s') =
         if decide (floor_H now ∈ (df s).*1) then length (df s)
         else S (length (df s)).
Proof.
  intros L s now live usage Hs Hu s'.
  assert (df s' ≡ₚ filter (λ r : row, r.1 ≠ floor_H now) (df s)
                    ++ [(floor_H now, usage)]) as Hp.
  { unfold s'. rewrite detect_leak_df by done. by apply concat_entry_frame. }
  split.
  - intros t v Ht.
    rewrite Hp, elem_of_app, list_elem_of_filter, list_elem_of_singleton.
    simpl. split; [intros [[_ H]|H]; [done | congruence] | auto].
  - rewrite Hp, length_app. simpl. rewrite Nat.add_1_r.
    by apply filter_key_length, key_lt_sorted_NoDup.
Qed.

Lemma X6_observation_frame_effect_witness :
  let L := sample_libraries 7 true (Fin 0) in
  let s := sample_system 7 true (Fin 0) (steady_history 4) in
  length (df (detect_leak L (3 * hour + 9) (Fin 1) (Some (Fin 6)) s).2) = 8%nat
  /\ length (df (detect_leak L (9 * hour) (Fin 1) (Some (Fin 6)) s).2) = 9%nat.
Proof.
  intros L s.
  assert (StronglySorted key_lt (df s)) as Hs.
  { apply (init_sorted L (Some (steady_history 4))). vm_compute. reflexivity. }
  split.
  - destruct (X6_observation_frame_effect L s (3 * hour + 9) (Fin 1) (Fin 6)
                Hs eq_refl) as [_ Hlen].
    rewrite Hlen. vm_compute. reflexivity.
  - destruct (X6_observation_frame_effect L s (9 * hour) (Fin 1) (Fin 6)
                Hs eq_refl) as [_ Hlen].
    rewrite Hlen. vm_compute. reflexivity.
Defined.

(** X7.  Restart safety: when the frame has no missing cell, the file
    written by a call with an observation loads to exactly the frame the
    call left in memory. *)
Theorem X7_persisted_file_reloads :
  forall (L : Libraries) (s : Self L) now live usage,
    no_missing (df s) ->
    is_nan usage = false ->
    let s' := (detect_leak L now live (Some usage) s).2 in
    load_data (csv_file s') = Ok (df s') /\ no_missing (df s').
Proof.
  intros L s now live usage Hd Hu s'.
  destruct (detect_leak_stored L s now live usage Hu)
    as [Hdf Hcsv].
  fold s' in Hdf, Hcsv. rewrite Hcsv, Hdf.
  assert (no_missing (concat_entry (df s) (floor_H now) usage)) as Hn
    by (by apply concat_entry_no_missing).
  split; [|exact Hn].
  apply load_data_fixpoint; [apply concat_entry_sorted | exact Hn].
Qed.

Lemma X7_persisted_file_reloads_witness :
  let L := sample_libraries 7 true (Fin 0) in
  let s := sample_system 7 true (Fin 0) (steady_history 4) in
  let s' := (detect_leak L (9 * hour + 30) (Fin 1) (Some (Fin 6)) s).2 in
  load_data (csv_file s') = Ok (df s').
Proof.
  intros L s s'.
  destruct (X7_persisted_file_reloads L s (9 * hour + 30) (Fin 1) (Fin 6))
    as [H _].
  - repeat constructor.
  - reflexivity.
  - exact H.
Defined.

(** X8.  A call with an observation that returns a classification has
    retrained everything on the refreshed frame: the forecaster, the
    outlier scorer and the seasonal forecaster it leaves are the ones
    fitted on the cleaned frame that holds the observation, the seasonal
    one on its daily sums. *)
Theorem X8_returning_call_has_retrained :
  forall (L : Libraries) (s s' : Self L) now live usage r,
    is_nan usage = false ->
    detect_leak L now live (Some usage) s = (Ok r, s') ->
    df s' = concat_entry (df s) (floor_H now) usage
    /\ exists model fit forest prophet,
         ARIMA L (dropna (df s')) = Ok model
         /\ arima_fit L model = Ok fit
         /\ iso_fit L (dropna (df s')) = Ok forest
         /\ prophet_fit L (resample_D_sum (dropna (df s'))) = Ok prophet
         /\ model_fit s' = Some fit
         /\ iso_forest s' = Some (Fitted forest)
         /\ prophet_model s' = Some (Fitted prophet).
Proof.
  intros L s s' now live usage r Hu Hrun.
  assert (s' = (detect_leak L now live (Some usage) s).2) as Hs'
    by (by rewrite Hrun).
  assert (df s' = concat_entry (df s) (floor_H now) usage) as Hdf
    by (rewrite Hs'; by apply detect_leak_df).
  split; [exact Hdf|].
  unfold detect_leak, mbind, M_bind in Hrun.
  destruct (ingest L now (Some usage) s) as [[[]|e] s1] eqn:Hin; [|done].
  assert (s' = s1) as ->.
  { pose proof (infer_state L s1 live) as Hst. by rewrite Hrun in Hst. }
  unfold ingest in Hin. rewrite Hu in Hin.
  unfold mbind, M_bind, get, modify in Hin.
  apply train_models_ok in Hin
    as (model & fit & forest & prophet & H1 & H2 & H3 & H4 & ->);
    cbn [df set_df set_csv_file] in *.
  - by exists model, fit, forest, prophet.
  - by apply dropna_concat_entry.
Qed.

Lemma X8_returning_call_has_retrained_witness :
  let L := sample_libraries 7 true (Fin 0) in
  let s := sample_system 7 true (Fin 0) (steady_history 4) in
  exists r s',
    detect_leak L (9 * hour + 30) (Fin 1) (Some (Fin 6)) s = (Ok r, s')
    /\ df s' = concat_entry (df s) (9 * hour) (Fin 6)
    /\ is_Some (model_fit s').
Proof.
  intros L s.
  assert (exists r s',
            detect_leak L (9 * hour + 30) (Fin 1) (Some (Fin 6)) s = (Ok r, s'))
    as (r & s' & Hrun) by (eexists _, _; vm_compute; reflexivity).
  exists r, s'. split; [exact Hrun|].
  destruct (X8_returning_call_has_retrained L s s' (9 * hour + 30) (Fin 1)
              (Fin 6) r eq_refl Hrun)
    as (Hdf & model & fit & forest & prophet & _ & _ & _ & _ & Hfit & _).
  split; [exact Hdf | by exists fit].
Defined.

(** ** The constructor and the states of a running system *)

Lemma init_run (L : Libraries) (rows : list row) (self : Self L) :
  init L (Some rows) = Ok self ->
  exists d,
    load_data (Some rows) = Ok d
    /\ train_models L (Build_Self L (Some rows) d None None None None)
         = (Ok tt, self).
Proof.
  unfold init. destruct (load_data (Some rows)) as [d|e]; [|done].
  destruct (train_models L _) as [[[]|e] s1] eqn:Ht; [|done].
  intros [= <-]. by exists d.
Qed.

(** X9.  A constructed system holds the loaded frame and leaves the file
    as it found it.  Without observations it has no model at all; with
    observations its three models are the ones fitted on the cleaned frame,
    the seasonal one on its daily sums. *)
Theorem X9_constructor_trains_on_loaded_frame :
  forall (L : Libraries) (rows : list row) (self : Self L),
    init L (Some rows) = Ok self ->
    csv_file self = Some rows
    /\ load_data (Some rows) = Ok (df self)
    /\ (dropna (df self) = [] ->
         model_fit self = None /\ iso_forest self = None
         /\ prophet_model self = None)
    /\ (dropna (df self) <> [] ->
         exists model fit forest prophet,
           ARIMA L (dropna (df self)) = Ok model
           /\ arima_fit L model = Ok fit
           /\ iso_fit L (dropna (df self)) = Ok forest
           /\ prophet_fit L (resample_D_sum (dropna (df self))) = Ok prophet
           /\ model_fit self = Some fit
           /\ iso_forest self = Some (Fitted forest)
           /\ prophet_model self = Some (Fitted prophet)).
Proof.
  intros L rows self Hinit.
  destruct (init_run L rows self Hinit) as (d & Hload & Htrain).
  set (s0 := Build_Self L (Some rows) d None None None None) in *.
  assert (df self = d) as Hdf
    by (change d with (df s0); rewrite <- (train_models_df L s0);
        by rewrite Htrain).
  assert (csv_file self = Some rows) as Hcsv
    by (change (Some rows) with (csv_file s0);
        rewrite <- (train_models_csv_file L s0); by rewrite Htrain).
  rewrite Hdf. repeat split; try done.
  - rewrite train_models_skip in Htrain by done. by injection Htrain as <-.
  - rewrite train_models_skip in Htrain by done. by injection Htrain as <-.
  - rewrite train_models_skip in Htrain by done. by injection Htrain as <-.
  - intros Hne.
    destruct (train_models_ok L s0 self Htrain Hne)
      as (model & fit & forest & prophet & H1 & H2 & H3 & H4 & ->).
    by exists model, fit, forest, prophet.
Qed.

Lemma X9_constructor_trains_on_loaded_frame_witness :
  let L := sample_libraries 7 true (Fin 0) in
  let self := sample_system 7 true (Fin 0) (steady_history 4) in
  csv_file self = Some (steady_history 4)
  /\ load_data (Some (steady_history 4)) = Ok (df self).
Proof.
  intros L self.
  destruct (X9_constructor_trains_on_loaded_frame L (steady_history 4) self)
    as (H1 & H2 & _).
  - vm_compute. reflexivity.
  - split; [exact H1 | exact H2].
Defined.

Lemma ingest_csv_file_Some (L : Libraries) (s : Self L) now total :
  is_Some (csv_file s) -> is_Some (csv_file (ingest L now total s).2).
Proof.
  intros Hs. destruct total as [usage|]; [|done].
  destruct (is_nan usage) eqn:Hu.
  - unfold ingest. by rewrite Hu.
  - rewrite ingest_csv_file by done. eauto.
Qed.

(** X10.  In every state of a running system the frame is sorted by
    timestamp without duplicated timestamps, and the file exists. *)
Theorem X10_running_system_invariant :
  forall (L : Libraries) (s : Self L),
    reachable L s ->
    StronglySorted key_lt (df s)
    /\ NoDup (df s).*1
    /\ is_Some (csv_file s).
Proof.
  intros L s Hr.
  assert (StronglySorted key_lt (df s)) as Hs by (by apply reachable_sorted).
  split; [exact Hs|]. split; [by apply key_lt_sorted_NoDup|].
  clear Hs.
  induction Hr as [file s Hinit|s now live total _ IH|s now _ IH].
  - destruct file as [rows|]; [|done].
    destruct (init_run L rows s Hinit) as (d & _ & Htrain).
    pose proof (train_models_csv_file L
                  (Build_Self L (Some rows) d None None None None)) as Hc.
    rewrite Htrain in Hc. simpl in Hc. rewrite Hc. eauto.
  - rewrite detect_leak_state. by apply ingest_csv_file_Some.
  - by rewrite predict_weekly_usage_state.
Qed.

Lemma X10_running_system_invariant_witness :
  let L := sample_libraries 7 true (Fin 0) in
  let s := (detect_leak L (9 * hour) (Fin 1) (Some (Fin 6))
              (sample_system 7 true (Fin 0) (steady_history 4))).2 in
  StronglySorted key_lt (df s) /\ is_Some (csv_file s).
Proof.
  intros L s.
  destruct (X10_running_system_invariant L s) as (H1 & _ & H3).
  - apply reachable_detect_leak.
    apply (reachable_init L (Some (steady_history 4))).
    vm_compute. reflexivity.
  - split; [exact H1 | exact H3].
Defined.

Lemma init_all_missing (L : Libraries) (rows : list row) :
  Forall (fun r : row => is_nan r.2 = true) rows ->
  exists d, init L (Some rows) = Ok (Build_Self L (Some rows) d
                                       None None None None).
Proof.
  intros Hrows.
  destruct (load_data_all_missing rows Hrows) as (d & Hload & Hd).
  exists d. unfold init. rewrite Hload.
  by rewrite train_models_skip by (by apply dropna_all_missing).
Qed.

(** X11.  The weekly forecast has no fallback: on a system built from a
    file without observations [predict_weekly_usage] raises
    [AttributeError] for the seasonal forecaster, and the system is left
    as it was. *)
Theorem X11_weekly_forecast_needs_a_model :
  forall (L : Libraries) (rows : list row),
    Forall (fun r : row => is_nan r.2 = true) rows ->
    exists self,
      init L (Some rows) = Ok self
      /\ forall now,
           predict_weekly_usage L now self =
             (Raise (AttributeError "prophet_model"), self).
Proof.
  intros L rows Hrows.
  destruct (init_all_missing L rows Hrows) as (d & Hinit).
  eexists. split; [exact Hinit|]. done.
Qed.

Lemma X11_weekly_forecast_needs_a_model_witness :
  exists self,
    init (sample_libraries 7 true (Fin 0)) (Some []) = Ok self
    /\ predict_weekly_usage _ (12 * hour) self =
         (Raise (AttributeError "prophet_model"), self).
Proof.
  destruct (X11_weekly_forecast_needs_a_model
              (sample_libraries 7 true (Fin 0)) []) as (self & Hinit & H).
  - constructor.
  - exists self. split; [exact Hinit | apply H].
Defined.

(** ** Rounding to two decimals *)

Lemma round_half_even_floor q :
  round_half_even q = Qfloor q \/ round_half_even q = Qfloor q + 1.
Proof.
  destruct q as [n d]. unfold round_half_even, Qfloor.
  cbn [Qnum Qden]. cbv zeta.
  destruct (2 * (n mod Z.pos d) ?= Z.pos d)%Z;
    [destruct (Z.even (n / Z.pos d))| |]; auto.
Qed.

Lemma round_half_even_mono q1 q2 :
  (q1 <= q2)%Q -> round_half_even q1 <= round_half_even q2.
Proof.
  intros Hle. pose proof (Qfloor_resp_le _ _ Hle) as Hfl.
  destruct (Z.eq_dec (Qfloor q1) (Qfloor q2)) as [Heq|Hne].
  - destruct q1 as [n1 d1], q2 as [n2 d2].
    unfold round_half_even, Qfloor, Qle in *. cbn [Qnum Qden] in *.
    cbv zeta.
    pose proof (Z.div_mod n1 (Z.pos d1) ltac:(lia)) as E1.
    pose proof (Z.div_mod n2 (Z.pos d2) ltac:(lia)) as E2.
    pose proof (Z.mod_pos_bound n1 (Z.pos d1) ltac:(lia)) as B1.
    pose proof (Z.mod_pos_bound n2 (Z.pos d2) ltac:(lia)) as B2.
    rewrite <- Heq in *.
    set (f := n1 / Z.pos d1) in *.
    set (r1 := n1 mod Z.pos d1) in *. set (r2 := n2 mod Z.pos d2) in *.
    assert (r1 * Z.pos d2 <= r2 * Z.pos d1) as Hr by nia.
    destruct (Z.compare_spec (2 * r1) (Z.pos d1)) as [C1|C1|C1];
      destruct (Z.compare_spec (2 * r2) (Z.pos d2)) as [C2|C2|C2];
      try lia; try (destruct (Z.even f); lia); exfalso; nia.
  - destruct (round_half_even_floor q1) as [-> | ->];
      destruct (round_half_even_floor q2) as [-> | ->]; lia.
Qed.

Lemma round_half_even_inject_Z (k : Z) : round_half_even (inject_Z k) = k.
Proof.
  unfold round_half_even, inject_Z. cbn [Qnum Qden].
  rewrite Z.div_1_r, Z.mod_1_r. reflexivity.
Qed.

Lemma round2_two_decimals x : two_decimals (round2 x).
Proof.
  destruct x as [| |q|]; try exact I. simpl.
  exists (round_half_even (q * 100)). apply Qred_correct.
Qed.

Lemma round2_mono x y :
  num_leb x y = true -> num_leb (round2 x) (round2 y) = true.
Proof.
  destruct x as [| |a|], y as [| |b|]; simpl; try done.
  rewrite !Qle_bool_iff. intros Hab. rewrite !Qred_correct.
  assert (round_half_even (a * 100) <= round_half_even (b * 100)) as Hk
    by (apply round_half_even_mono; lra).
  rewrite Zle_Qle in Hk. unfold Qdiv.
  apply Qmult_le_compat_r; [exact Hk | discriminate].
Qed.

Lemma round2_at_most_100 x :
  num_leb x (Fin 100) = true -> num_leb (round2 x) (Fin 100) = true.
Proof. intros H. by apply (round2_mono x (Fin 100)). Qed.

(** ** The classification step: bounds, saturation, monotonicity *)

Lemma py_min_1_at_most x : num_leb (py_min (Fin 1) x) (Fin 1) = true.
Proof.
  destruct x as [| |q|]; try reflexivity.
  cbv [py_min num_ltb]. q_cases; [|reflexivity].
  cbv [num_leb]. apply Qle_bool_iff. lra.
Qed.

Lemma mul_100_at_most x :
  num_leb x (Fin 1) = true -> num_leb (num_mul x (Fin 100)) (Fin 100) = true.
Proof.
  destruct x as [| |q|]; try done. cbv [num_leb num_mul].
  rewrite !Qle_bool_iff, Qred_correct. lra.
Qed.

Lemma classifier_probability_at_most_100 live average_usage anomaly_score :
  num_leb (leak_classifier live average_usage anomaly_score).1.2 (Fin 100)
    = true.
Proof.
  destruct (num_gtb live average_usage) eqn:Hgt.
  - rewrite classifier_overuse_branch by done. cbn [fst snd].
    apply round2_at_most_100, mul_100_at_most, py_min_1_at_most.
  - pose proof (normal_probability_in_0_100 live average_usage anomaly_score
                  Hgt) as H.
    unfold in_0_100 in H. by apply andb_true_iff in H as [_ H].
Qed.

(** The overuse ratio on a positive mean. *)
Lemma overuse_ratio_value a l :
  (0 < a)%Q -> (a < l)%Q ->
  num_div (num_sub (Fin l) (Fin a))
          (num_sub (num_mul (Fin a) (Fin (3 # 2))) (Fin a)) =
    Fin (Qred (Qred (l - a) / Qred (Qred (a * (3 # 2)) - a))).
Proof.
  intros Ha Hl.
  assert (Qred (Qred (a * (3 # 2)) - a) == a * (1 # 2))%Q as Hd
    by (rewrite !Qred_correct; ring).
  cbv [num_mul num_sub num_div]. q_cases; try (exfalso; lra); reflexivity.
Qed.

(** X12.  Saturation: on a positive mean, every reading at or above the
    threshold (1.5 times the mean), infinite included, is classified
    "Leak Detected" with probability exactly 100. *)
Theorem X12_at_threshold_probability_100 :
  forall a live anomaly_score,
    (0 < a)%Q ->
    num_leb (num_mul (Fin a) (Fin (3 # 2))) live = true ->
    (leak_classifier live (Fin a) anomaly_score).1 =
      ("Leak Detected", Fin 100).
Proof.
  intros a live anomaly_score.
  intros Ha Hle.
  assert (Qred (a * (3 # 2)) == a * (3 # 2))%Q as Ht by apply Qred_correct.
  assert (Qred (Qred (a * (3 # 2)) - a) == a * (1 # 2))%Q as Hd
    by (rewrite !Qred_correct; ring).
  destruct live as [| |l|]; try done.
  - cbv [num_mul num_leb] in Hle. apply Qle_bool_iff in Hle.
    assert (Qred (l - a) == l - a)%Q as Hn by apply Qred_correct.
    rewrite classifier_overuse_branch
      by (cbv [num_gtb num_ltb]; apply Qltb_lt; lra).
    rewrite overuse_ratio_value by lra. cbn [fst].
    set (r := Qred (Qred (l - a) / Qred (Qred (a * (3 # 2)) - a))).
    assert (1 <= r)%Q as Hr.
    { unfold r. rewrite Qred_correct. apply Qle_shift_div_l; lra. }
    cbv [num_mul num_ltb py_min]. q_cases; try (exfalso; lra); reflexivity.
  - rewrite classifier_overuse_branch by reflexivity. cbn [fst].
    cbv [num_mul num_sub num_div inf num_ltb].
    q_cases; try (exfalso; lra); reflexivity.
Qed.

Lemma X12_at_threshold_probability_100_witness :
  (leak_classifier (Fin 15) (Fin 10) (Fin 0)).1 = ("Leak Detected", Fin 100)
  /\ (leak_classifier PInf (Fin 10) (Fin 0)).1 = ("Leak Detected", Fin 100).
Proof.
  split.
  - apply (X12_at_threshold_probability_100 10 (Fin 15) (Fin 0));
      reflexivity.
  - apply (X12_at_threshold_probability_100 10 PInf (Fin 0)); reflexivity.
Defined.

(** X13.  Monotonicity: on a positive mean, of two readings above the
    mean the higher one never gets the lower probability, whatever the
    outlier scores are. *)
Theorem X13_overuse_probability_monotone :
  forall a live1 live2 score1 score2,
    (0 < a)%Q ->
    num_gtb live1 (Fin a) = true ->
    num_leb live1 live2 = true ->
    num_leb (leak_classifier live1 (Fin a) score1).1.2
            (leak_classifier live2 (Fin a) score2).1.2 = true.
Proof.
  intros a live1 live2 score1 score2.
  intros Ha Hgt Hle.
  assert (num_gtb live2 (Fin a) = true) as Hgt2.
  { unfold num_gtb in *.
    destruct live1 as [| |l1|], live2 as [| |l2|]; try done; simpl in *.
    apply Qltb_lt. apply Qltb_lt in Hgt. apply Qle_bool_iff in Hle. lra. }
  rewrite !classifier_overuse_branch by done. cbn [fst snd].
  apply round2_mono.
  destruct live2 as [| |l2|]; try done.
  - destruct live1 as [| |l1|]; try done.
    unfold num_gtb in *. simpl in Hgt, Hgt2, Hle.
    apply Qltb_lt in Hgt, Hgt2. apply Qle_bool_iff in Hle.
    rewrite !overuse_ratio_value by done.
    assert (Qred (Qred (a * (3 # 2)) - a) == a * (1 # 2))%Q as Hd
      by (rewrite !Qred_correct; ring).
    set (d := Qred (Qred (a * (3 # 2)) - a)) in *.
    assert (Qred (Qred (l1 - a) / d) <= Qred (Qred (l2 - a) / d))%Q as Hr.
    { rewrite !(Qred_correct (_ / _)). unfold Qdiv.
      apply Qmult_le_compat_r; [rewrite !Qred_correct; lra|].
      apply Qinv_le_0_compat. lra. }
    set (r1 := Qred (Qred (l1 - a) / d)) in *.
    set (r2 := Qred (Qred (l2 - a) / d)) in *.
    cbv [py_min num_ltb]. q_cases; cbv [num_mul num_leb];
      rewrite Qle_bool_iff, ?Qred_correct; lra.
  - replace (num_mul
               (py_min (Fin 1)
                  (num_div (num_sub PInf (Fin a))
                     (num_sub (num_mul (Fin a) (Fin (3 # 2))) (Fin a))))
               (Fin 100)) with (Fin 100).
    + apply mul_100_at_most, py_min_1_at_most.
    + assert (Qred (Qred (a * (3 # 2)) - a) == a * (1 # 2))%Q as Hd
        by (rewrite !Qred_correct; ring).
      cbv [num_mul num_sub num_div inf].
      q_cases; [reflexivity | exfalso; lra].
Qed.

Lemma X13_overuse_probability_monotone_witness :
  num_leb (leak_classifier (Fin 11) (Fin 10) NaN).1.2
          (leak_classifier (Fin 12) (Fin 10) (Fin 1)).1.2 = true.
Proof.
  apply (X13_overuse_probability_monotone 10 (Fin 11) (Fin 12) NaN (Fin 1));
    reflexivity.
Defined.

(** ** What [detect_leak] returns *)

Lemma detect_leak_result (L : Libraries) (s s' : Self L) now live total r :
  detect_leak L now live total s = (Ok r, s') ->
  exists score v,
    r = {| live_flow_rate := live;
           expected_usage := round2 v;
           leak_status := (leak_classifier live (mean (df s')) score).1.1;
           leak_probability :=
             (leak_classifier live (mean (df s')) score).1.2 |}.
Proof.
  unfold detect_leak, mbind, M_bind.
  destruct (ingest L now total s) as [[[]|e] s1]; [|done].
  intros Hrun.
  assert (s' = s1) as ->.
  { pose proof (infer_state L s1 live) as Hst. by rewrite Hrun in Hst. }
  destruct (iso_forest s1) as [[|forest]|] eqn:Hf.
  - unfold infer, mbind, M_bind in Hrun.
    rewrite forecast_expected_usage_run in Hrun.
    unfold getattr, fitted, call, get, mbind, M_bind in Hrun.
    by rewrite Hf in Hrun.
  - destruct (decision_function L forest live) as [score|e] eqn:Hs.
    + rewrite (infer_scored L s1 live forest score Hf Hs) in Hrun.
      injection Hrun as <-. rewrite forecast_expected_usage_run. cbn [fst].
      exists score. destruct (model_fit s1) as [fit|]; [|by eexists].
      destruct (arima_forecast L fit); by eexists.
    + unfold infer, mbind, M_bind in Hrun.
      rewrite forecast_expected_usage_run in Hrun.
      unfold getattr, fitted, call, get, mbind, M_bind, mret, M_ret in Hrun.
      rewrite Hf in Hrun. cbn in Hrun. by rewrite Hs in Hrun.
  - by rewrite infer_no_forest in Hrun.
Qed.

Lemma series_sum_nonneg (rows : list row) :
  Forall (fun r : row => nonneg_or_missing r.2) rows ->
  exists a, series_sum rows = Fin a /\ (0 <= a)%Q.
Proof.
  induction 1 as [|[t v] rows Hr _ (a & IH & Ha)];
    [exists 0%Q; split; [done | lra]|].
  rewrite series_sum_cons.
  destruct v as [| |q|]; simpl in *; try done; rewrite IH.
  - eauto.
  - exists (Qred (q + a)). split; [done|]. rewrite Qred_correct. lra.
Qed.

Lemma mean_nonneg (rows : list row) :
  Forall (fun r : row => nonneg_or_missing r.2) rows ->
  mean rows = NaN \/ exists a, mean rows = Fin a /\ (0 <= a)%Q.
Proof.
  intros Hf. unfold mean.
  destruct (dropna rows) as [|r cleaned] eqn:Hd; [by left|]. right.
  destruct (series_sum_nonneg (r :: cleaned)) as (a & Ha & Hpos).
  { rewrite <- Hd. unfold dropna.
    rewrite Forall_forall in *. intros x Hx.
    apply list_elem_of_filter in Hx as [_ Hx]. auto. }
  rewrite Ha. cbv [num_div].
  set (n := inject_Z (Z.of_nat (length (r :: cleaned)))).
  assert (0 < n)%Q as Hn by (unfold n, Qlt; simpl; lia).
  assert (Qeq_bool n 0 = false) as -> by (apply Qeq_bool_false; lra).
  eexists. split; [done|]. rewrite Qred_correct.
  apply Qle_shift_div_l; lra.
Qed.

(** X14.  Whatever the state and the inputs, a classification that
    [detect_leak] returns never has a probability above 100. *)
Theorem X14_returned_probability_at_most_100 :
  forall (L : Libraries) (s s' : Self L) now live total r,
    detect_leak L now live total s = (Ok r, s') ->
    num_leb (leak_probability r) (Fin 100) = true.
Proof.
  intros L s s' now live total r Hrun.
  destruct (detect_leak_result L s s' now live total r Hrun)
    as (score & v & ->).
  apply classifier_probability_at_most_100.
Qed.

Lemma X14_returned_probability_at_most_100_witness :
  let L := sample_libraries 7 true (Fin 0) in
  exists r s',
    detect_leak L (12 * hour) (Fin 0) None
      (sample_system 7 true (Fin 0) (steady_history (-10))) = (Ok r, s')
    /\ num_leb (leak_probability r) (Fin 100) = true.
Proof.
  intros L.
  assert (exists r s',
            detect_leak L (12 * hour) (Fin 0) None
              (sample_system 7 true (Fin 0) (steady_history (-10)))
            = (Ok r, s'))
    as (r & s' & Hrun) by (eexists _, _; vm_compute; reflexivity).
  exists r, s'. split; [exact Hrun|].
  exact (X14_returned_probability_at_most_100 L _ s' _ _ _ r Hrun).
Defined.

(** X15.  When the frame a call leaves holds no negative and no infinite
    usage, the probability of the classification it returns is within
    [0, 100]. *)
Theorem X15_returned_probability_in_range :
  forall (L : Libraries) (s s' : Self L) now live total r,
    detect_leak L now live total s = (Ok r, s') ->
    Forall (fun r : row => nonneg_or_missing r.2) (df s') ->
    in_0_100 (leak_probability r) = true.
Proof.
  intros L s s' now live total r Hrun Hdf.
  destruct (detect_leak_result L s s' now live total r Hrun)
    as (score & v & ->). cbn [leak_probability].
  destruct (mean_nonneg (df s') Hdf) as [-> | (a & -> & Ha)].
  - apply normal_probability_in_0_100. unfold num_gtb. by destruct live.
  - destruct (num_gtb live (Fin a)) eqn:Hgt.
    + by apply overuse_probability_in_0_100.
    + by apply normal_probability_in_0_100.
Qed.

Lemma X15_returned_probability_in_range_witness :
  let L := sample_libraries 7 true (Fin 0) in
  exists r s',
    detect_leak L (12 * hour) (Fin 5) (Some (Fin 6))
      (sample_system 7 true (Fin 0) (steady_history 4)) = (Ok r, s')
    /\ in_0_100 (leak_probability r) = true.
Proof.
  intros L.
  assert (exists r s',
            detect_leak L (12 * hour) (Fin 5) (Some (Fin 6))
              (sample_system 7 true (Fin 0) (steady_history 4))
            = (Ok r, s'))
    as (r & s' & Hrun) by (eexists _, _; vm_compute; reflexivity).
  exists r, s'. split; [exact Hrun|].
  apply (X15_returned_probability_in_range L _ s' _ _ _ r Hrun).
  assert (s' = (detect_leak L (12 * hour) (Fin 5) (Some (Fin 6))
                  (sample_system 7 true (Fin 0) (steady_history 4))).2)
    as -> by (by rewrite Hrun).
  rewrite detect_leak_df by reflexivity.
  vm_compute. repeat constructor; discriminate.
Defined.

(** X16.  Both numbers of a returned classification, [expected_usage] and
    [leak_probability], have at most two decimals. *)
Theorem X16_returned_numbers_have_two_decimals :
  forall (L : Libraries) (s s' : Self L) now live total r,
    detect_leak L now live total s = (Ok r, s') ->
    two_decimals (expected_usage r) /\ two_decimals (leak_probability r).
Proof.
  intros L s s' now live total r Hrun.
  destruct (detect_leak_result L s s' now live total r Hrun)
    as (score & v & ->). cbn [expected_usage leak_probability].
  split; [apply round2_two_decimals|].
  unfold leak_classifier, np_div.
  destruct (num_gtb live (mean (df s'))); apply round2_two_decimals.
Qed.

Lemma X16_returned_numbers_have_two_decimals_witness :
  let L := sample_libraries 7 true (Fin (12345 # 100000)) in
  exists r s',
    detect_leak L (12 * hour) (Fin 3) None
      (sample_system 7 true (Fin (12345 # 100000)) (steady_history 4))
      = (Ok r, s')
    /\ two_decimals (leak_probability r).
Proof.
  intros L.
  assert (exists r s',
            detect_leak L (12 * hour) (Fin 3) None
              (sample_system 7 true (Fin (12345 # 100000)) (steady_history 4))
            = (Ok r, s'))
    as (r & s' & Hrun) by (eexists _, _; vm_compute; reflexivity).
  exists r, s'. split; [exact Hrun|].
  by destruct (X16_returned_numbers_have_two_decimals L _ s' _ _ _ r Hrun).
Defined.

(** X17.  The status is decided against the mean of the frame the call
    leaves, which holds the observation of the call itself: the returned
    status is "Normal" exactly when the live reading is not above this
    mean, and the record echoes the live reading. *)
Theorem X17_status_against_refreshed_mean :
  forall (L : Libraries) (s s' : Self L) now live total r,
    detect_leak L now live total s = (Ok r, s') ->
    live_flow_rate r = live
    /\ (leak_status r = "Normal" <-> num_gtb live (mean (df s')) = false)
    /\ (leak_status r = "Normal" \/ leak_status r = "Potential Leak"
         \/ leak_status r = "Leak Detected").
Proof.
  intros L s s' now live total r Hrun.
  destruct (detect_leak_result L s s' now live total r Hrun)
    as (score & v & ->). cbn [live_flow_rate leak_status].
  split; [done|]. unfold leak_classifier, np_div.
  destruct (num_gtb live (mean (df s'))); cbn [fst snd].
  - destruct (num_ltb live _); split; try (split; [done | by intros]); auto.
  - split; [done | auto].
Qed.

Lemma X17_status_against_refreshed_mean_witness :
  let L := sample_libraries 7 true (Fin 0) in
  exists r s',
    detect_leak L (12 * hour) (Fin 5) (Some (Fin 13))
      (sample_system 7 true (Fin 0) (steady_history 4)) = (Ok r, s')
    /\ mean (df s') = Fin 5
    /\ leak_status r = "Normal".
Proof.
  intros L.
  assert (exists r s',
            detect_leak L (12 * hour) (Fin 5) (Some (Fin 13))
              (sample_system 7 true (Fin 0) (steady_history 4))
            = (Ok r, s'))
    as (r & s' & Hrun) by (eexists _, _; vm_compute; reflexivity).
  exists r, s'. split; [exact Hrun|].
  assert (mean (df s') = Fin 5) as Hm.
  { assert (s' = (detect_leak L (12 * hour) (Fin 5) (Some (Fin 13))
                    (sample_system 7 true (Fin 0) (steady_history 4))).2)
      as -> by (by rewrite Hrun).
    rewrite detect_leak_df by reflexivity. vm_compute. reflexivity. }
  split; [exact Hm|].
  destruct (X17_status_against_refreshed_mean L _ s' _ _ _ r Hrun)
    as (_ & Hn & _).
  apply Hn. rewrite Hm. reflexivity.
Defined.

(** ** A retraining that fails, and frames without gaps *)

(** X18.  A failed retraining is not rolled back.  When the fit of the
    outlier scorer raises during a call with an observation, the call
    raises this error; the frame already holds the observation, the
    forecaster is already the new one, and the seasonal forecaster is still
    the old one. *)
Theorem X18_failed_retraining_leaves_mixed_models :
  forall (L : Libraries) (s : Self L) now live usage model fit e,
    is_nan usage = false ->
    let d := concat_entry (df s) (floor_H now) usage in
    ARIMA L (dropna d) = Ok model ->
    arima_fit L model = Ok fit ->
    iso_fit L (dropna d) = Raise e ->
    let out := detect_leak L now live (Some usage) s in
    out.1 = Raise e
    /\ df out.2 = d
    /\ model_fit out.2 = Some fit
    /\ iso_forest out.2 = Some Unfitted
    /\ prophet_model out.2 = prophet_model s.
Proof.
  intros L s now live usage model fit e Hu d Hm Hfit Hiso out.
  unfold out, detect_leak, ingest, mbind, M_bind, get, modify. rewrite Hu.
  unfold train_models, mbind, M_bind, get, call, modify.
  cbn [df set_df set_csv_file]. fold d.
  pose proof (dropna_concat_entry (df s) (floor_H now) usage Hu) as Hne.
  fold d in Hne.
  destruct (dropna d) as [|r rest]; [done|].
  rewrite Hm. cbn beta iota. rewrite Hfit. cbn beta iota.
  rewrite Hiso. done.
Qed.

(** X19.  A frame without missing cells stays without missing cells: no
    call of [detect_leak] brings one in, whatever it is given and whether
    it returns or raises. *)
Theorem X19_no_missing_is_kept :
  forall (L : Libraries) (s : Self L) now live total,
    no_missing (df s) ->
    no_missing (df (detect_leak L now live total s).2).
Proof.
  intros L s now live total Hd.
  destruct total as [usage|]; [|by rewrite detect_leak_state].
  destruct (is_nan usage) eqn:Hu.
  - rewrite detect_leak_state. unfold ingest. by rewrite Hu.
  - rewrite detect_leak_df by done. by apply concat_entry_no_missing.
Qed.

Lemma X19_no_missing_is_kept_witness :
  let L := sample_libraries 7 true (Fin 0) in
  no_missing
    (df (detect_leak L (9 * hour) (Fin 1) (Some (Fin 6))
           (sample_system 7 true (Fin 0) (steady_history 4))).2).
Proof.
  intros L.
  apply (X19_no_missing_is_kept L
           (sample_system 7 true (Fin 0) (steady_history 4))).
  repeat constructor.
Defined.

Lemma X18_failed_retraining_leaves_mixed_models_witness :
  let out := detect_leak scorer_fails (9 * hour) (Fin 1) (Some (Fin 6))
               scorer_fails_system in
  out.1 = Raise (LibraryError "fit: scorer")
  /\ iso_forest out.2 = Some Unfitted
  /\ prophet_model out.2 = prophet_model scorer_fails_system.
Proof.
  intros out.
  destruct (X18_failed_retraining_leaves_mixed_models scorer_fails
              scorer_fails_system (9 * hour) (Fin 1) (Fin 6)
              (concat_entry (steady_history 4) (9 * hour) (Fin 6))
              (concat_entry (steady_history 4) (9 * hour) (Fin 6))
              (LibraryError "fit: scorer"))
    as (H1 & _ & _ & H4 & H5); try reflexivity.
  repeat split; assumption.
Defined.

(** ** The forecaster is fitted before the scorer *)

Lemma train_models_forecaster_first (L : Libraries) (s : Self L) :
  (model_fit s = None -> iso_forest s = None) ->
  model_fit (train_models L s).2 = None ->
  iso_forest (train_models L s).2 = None.
Proof.
  intros Hs.
  unfold train_models, call, modify, get, mbind, M_bind, mret, M_ret.
  cbn beta iota.
  generalize (resample_D_sum (dropna (df s))). intros daily.
  destruct (dropna (df s)) as [|r rest]; [exact Hs|].
  destruct (ARIMA L (r :: rest)) as [m|]; [|exact Hs].
  destruct (arima_fit L m) as [fit|]; [|exact Hs].
  cbn beta iota.
  destruct (iso_fit L (r :: rest)) as [forest|]; [|done].
  cbn beta iota.
  by destruct (prophet_fit L daily).
Qed.

(** In a running system a scorer exists only when a forecaster does: a
    system without a fitted forecaster raises at the scoring step, whatever
    the fallback of lines 51-52 computed. *)
Lemma reachable_forecaster_first (L : Libraries) (s : Self L) :
  reachable L s -> model_fit s = None -> iso_forest s = None.
Proof.
  induction 1 as [file s Hinit|s now live total _ IH|s now _ IH].
  - destruct file as [rows|]; [|done].
    destruct (init_run L rows s Hinit) as (d & _ & Htrain).
    pose proof (train_models_forecaster_first L
                  (Build_Self L (Some rows) d None None None None)) as H.
    rewrite Htrain in H. by apply H.
  - rewrite detect_leak_state.
    destruct total as [usage|]; [|exact IH].
    unfold ingest. destruct (is_nan usage); [exact IH|].
    unfold mbind, M_bind, get, modify.
    by apply train_models_forecaster_first.
  - by rewrite predict_weekly_usage_state.
Qed.
